(** * Airtable adapter: search, field resolution and record accessors

    A shallow embedding of the record handlers of the repository:
    - [src/modules/airtable/records.ts] (the tool module: list, get, create,
      update, delete and the client-side search),
    - [src/modules/airtable/index.ts] (the tool table [airtableTools]),
    - [src/server.ts] (the tool-protocol server: list and formula search),
    - the Express route [POST /airtable/list-records].

    The remote service and its SDK are an oracle ([World]); every handler is
    a computation in a small trace-and-exception monad ([Eff]) that records
    each remote call in the order in which it is issued.  The handlers are
    those of a process that has started (the API key is set); what they
    print with [console.error] is not part of the model. *)

From Stdlib Require Import String Ascii List ZArith NArith Bool Lia.
From stdpp Require Import base option list gmap strings pretty.

Local Open Scope string_scope.

(** ** The fragment of the JavaScript runtime the handlers rely on *)

Module Js.

(** The double-quote character, code unit 0x22. *)
Definition dquote : ascii := Ascii.ascii_of_N 34.

(** JavaScript strings are sequences of code units.  [string] covers the
    code units below 256 (the Latin-1 range); on those
    [String.prototype.toLowerCase] works unit by unit: [A-Z] and the
    accented capitals U+00C0..U+00DE, the multiplication sign U+00D7
    excepted, move up by 32, every other unit is unchanged.  On other
    strings lowercasing depends on the context of a unit (a final capital
    sigma), so it does not distribute over concatenation in general: the
    theorems below use lowercasing only as a function that maps the empty
    string to itself, and the examples apply it to ASCII strings. *)
Definition lower_unit (c : ascii) : ascii :=
  let n := Ascii.N_of_ascii c in
  if ((65 <=? n) && (n <=? 90) ||
      (192 <=? n) && (n <=? 222) && negb (n =? 215))%N
  then Ascii.ascii_of_N (n + 32)
  else c.

Fixpoint toLowerCase (s : string) : string :=
  match s with
  | EmptyString => EmptyString
  | String c r => String (lower_unit c) (toLowerCase r)
  end.

(** [t] occurs in [s] at position 0. *)
Fixpoint startsWith (s t : string) : bool :=
  match t, s with
  | EmptyString, _ => true
  | String _ _, EmptyString => false
  | String b t', String a s' => Ascii.eqb a b && startsWith s' t'
  end.

(** [String.prototype.includes]: [t] occurs in [s] at some position. *)
Fixpoint includes (s t : string) : bool :=
  startsWith s t ||
  match s with
  | EmptyString => false
  | String _ s' => includes s' t
  end.

(** The global replace of the formula builder (regular expression: one
    double quote, flag g; replacement: two double quotes): a left-to-right
    scan that replaces every double quote by two of them. *)
Fixpoint replace_dquotes (s : string) : string :=
  match s with
  | EmptyString => EmptyString
  | String c r =>
      if Ascii.eqb c dquote
      then String dquote (String dquote (replace_dquotes r))
      else String c (replace_dquotes r)
  end.

(** [Array.prototype.join] on an array of strings. *)
Fixpoint join (sep : string) (parts : list string) : string :=
  match parts with
  | [] => EmptyString
  | [p] => p
  | p :: rest => p +:+ sep +:+ join sep rest
  end.

(** [Array.prototype.some], [filter], [find] and [includes] (on strings,
    where SameValueZero is string equality). *)
Fixpoint some {A} (p : A -> bool) (xs : list A) : bool :=
  match xs with
  | [] => false
  | x :: rest => if p x then true else some p rest
  end.

Fixpoint filter {A} (p : A -> bool) (xs : list A) : list A :=
  match xs with
  | [] => []
  | x :: rest => if p x then x :: filter p rest else filter p rest
  end.

Fixpoint find {A} (p : A -> bool) (xs : list A) : option A :=
  match xs with
  | [] => None
  | x :: rest => if p x then Some x else find p rest
  end.

Definition arr_includes (xs : list string) (x : string) : bool :=
  some (String.eqb x) xs.

(** Values as they arrive from JSON.  Numbers are never inspected by the
    handlers; their payload is kept as an integer. *)
#[warnings="-register-all"]
Inductive Value : Type :=
| Undefined
| Null
| Bool (b : bool)
| Number (n : Z)
| Str (s : string)
| Arr (items : list Value)
| Obj (props : gmap string Value).

(** [typeof v === 'string'] and [Array.isArray(v)]. *)
Definition isString (v : Value) : bool :=
  match v with Str _ => true | _ => false end.

Definition isArray (v : Value) : bool :=
  match v with Arr _ => true | _ => false end.

(** Property read [o[k]] on a JSON object: an absent key reads as
    [undefined].  (Keys inherited from [Object.prototype] read as functions
    or objects, which like [undefined] are neither strings nor arrays.) *)
Definition get (o : gmap string Value) (k : string) : Value :=
  default Undefined (o !! k).

(** What a [catch] clause can receive: a native [Error] (as made by
    [new Error(msg)], or a [TypeError] and the like from the runtime), or
    the SDK's [AirtableError] with its [error] code, [message] and
    [statusCode]. *)
Inductive Thrown : Type :=
| NativeError (name message : string)
| AirtableError (error message : string) (statusCode : option N).

Definition newError (msg : string) : Thrown := NativeError "Error" msg.

Definition message (e : Thrown) : string :=
  match e with
  | NativeError _ m => m
  | AirtableError _ m _ => m
  end.

Definition isEmpty (s : string) : bool :=
  match s with EmptyString => true | _ => false end.

(** A thrown value spliced into a template literal, and [e.toString()].
    [Error.prototype.toString] gives the name, a colon and a space, and the
    message, or the non-empty one of the two;
    [AirtableError.prototype.toString] joins message, [(error)] and, for a
    truthy status code, [[Http code n]]. *)
Definition toString (e : Thrown) : string :=
  match e with
  | NativeError n m =>
      if isEmpty n then m
      else if isEmpty m then n
      else n +:+ ": " +:+ m
  | AirtableError err m code =>
      m +:+ "(" +:+ err +:+ ")" +:+
      match code with
      | Some c => if (c =? 0)%N then EmptyString
                  else "[Http code " +:+ pretty c +:+ "]"
      | None => EmptyString
      end
  end.

End Js.

(** ** The remote service *)

Module Airtable.

Inductive Outcome (A : Type) : Type :=
| Returned (a : A)
| Threw (e : Js.Thrown).
Arguments Returned {A} a.
Arguments Threw {A} e.

(** Table metadata, as served by [GET /meta/bases/{baseId}/tables]. *)
Record Field := { field_id : string; field_name : string; field_type : string }.

Record Table := { table_id : string; table_name : string; table_fields : list Field }.

(** The response of [fetch]: the [ok] flag, the status, and what [json()]
    resolves to (the [tables] array) or rejects with. *)
Record Response := {
  resp_ok : bool;
  resp_status : N;
  resp_json : Outcome (list Table)
}.

(** A record object of the SDK. *)
Record Record_ := {
  rec_id : string;
  rec_fields : gmap string Js.Value;
  rec_createdTime : Js.Value
}.

Inductive Direction := asc | desc.

Record SortSpec := { sort_field : string; sort_direction : option Direction }.

(** A key of the object handed to [select]: absent from the object, present
    with the value [undefined], or present with a value.  The SDK tells the
    first two apart, since it validates every key that is present. *)
Inductive Key (A : Type) : Type :=
| Absent
| PassedUndefined
| Given (a : A).
Arguments Absent {A}.
Arguments PassedUndefined {A}.
Arguments Given {A} a.

(** A key that is set only when the variable has a value. *)
Definition present {A} (x : option A) : Key A :=
  match x with
  | Some a => Given a
  | None => Absent
  end.

(** A key written with a variable that may be [undefined]. *)
Definition passed {A} (x : option A) : Key A :=
  match x with
  | Some a => Given a
  | None => PassedUndefined
  end.

(** The value of a key, if it has one. *)
Definition supplied {A} (k : Key A) : option A :=
  match k with
  | Given a => Some a
  | Absent | PassedUndefined => None
  end.

Definition is_undefined {A} (k : Key A) : bool :=
  match k with
  | PassedUndefined => true
  | Absent | Given _ => false
  end.

(** The argument of [select]. *)
Record SelectParams := {
  q_view : Key string;
  q_fields : Key (list string);
  q_maxRecords : Key Z;
  q_filterByFormula : Key string;
  q_sort : Key (list SortSpec)
}.

Definition has_undefined (q : SelectParams) : bool :=
  is_undefined (q_view q) || is_undefined (q_fields q) ||
  is_undefined (q_maxRecords q) || is_undefined (q_filterByFormula q) ||
  is_undefined (q_sort q).

(** The calls a handler can make on [fetch] and on the SDK. *)
Inductive Call : Type :=
| FetchTables (baseId : string)
| SelectAll (baseId table : string) (q : SelectParams)
| Find (baseId table recordId : string)
| Create (baseId table : string) (fields : gmap string Js.Value)
| Update (baseId table recordId : string) (fields : gmap string Js.Value)
| Destroy (baseId table recordId : string).

(** How the remote service answers each call. *)
Record World := {
  fetch_tables : string -> Outcome Response;
  select_all : string -> string -> SelectParams -> Outcome (list Record_);
  find : string -> string -> string -> Outcome Record_;
  create : string -> string -> gmap string Js.Value -> Outcome Record_;
  update : string -> string -> string -> gmap string Js.Value -> Outcome Record_;
  destroy : string -> string -> string -> Outcome Record_
}.

(** Handlers run in [Eff]: the calls issued so far are threaded through,
    and a computation either returns or throws. *)
Definition Eff (A : Type) : Type := list Call -> list Call * Outcome A.

Definition ret {A} (a : A) : Eff A := fun tr => (tr, Returned a).

Definition throw {A} (e : Js.Thrown) : Eff A := fun tr => (tr, Threw e).

Definition bind {A B} (m : Eff A) (k : A -> Eff B) : Eff B :=
  fun tr =>
    match m tr with
    | (tr', Returned a) => k a tr'
    | (tr', Threw e) => (tr', Threw e)
    end.

(** [try { m } catch (error) { h error }]. *)
Definition try_catch {A} (m : Eff A) (h : Js.Thrown -> Eff A) : Eff A :=
  fun tr =>
    match m tr with
    | (tr', Returned a) => (tr', Returned a)
    | (tr', Threw e) => h e tr'
    end.

(** Await a promise that settles without a further remote call, such as the
    [json()] of a response already received. *)
Definition settle {A} (o : Outcome A) : Eff A := fun tr => (tr, o).

(** Issue the remote call [c], whose answer is [o]. *)
Definition await {A} (c : Call) (o : Outcome A) : Eff A :=
  fun tr => ((tr ++ [c])%list, o).

Definition run {A} (m : Eff A) : list Call * Outcome A := m [].

Definition trace {A} (m : Eff A) : list Call := fst (run m).

Definition outcome {A} (m : Eff A) : Outcome A := snd (run m).

End Airtable.

Import Airtable.

Notation "'let*' x ':=' m 'in' k" := (bind m (fun x => k))
  (at level 10, x name, m at level 100, k at level 200).

(** ** The tool module, [src/modules/airtable/records.ts] *)

Module Records.

(** The shape every handler maps a record to: [{id, fields, createdTime}]. *)
Record Simplified := {
  id : string;
  fields : gmap string Js.Value;
  createdTime : Js.Value
}.

Definition simplify (record : Record_) : Simplified :=
  {| id := rec_id record;
     fields := rec_fields record;
     createdTime := rec_createdTime record |}.

(** A string is truthy unless it is absent or empty. *)
Definition truthy (s : option string) : bool :=
  match s with
  | Some x => negb (Js.isEmpty x)
  | None => false
  end.

(** [listRecords.handler], lines 47-77. *)
Definition listRecords (W : World) (baseId tableIdOrName : string)
    (maxRecords : option Z) (view : option string)
    (sort : option (list SortSpec)) : Eff (list Simplified) :=
  let maxRecords := default 100%Z maxRecords in
  try_catch
    (let queryParams :=
       {| q_maxRecords := Given maxRecords;
          q_view := if truthy view then present view else Absent;
          q_sort := present sort;
          q_fields := Absent;
          q_filterByFormula := Absent |} in
     let* records := await (SelectAll baseId tableIdOrName queryParams)
                           (select_all W baseId tableIdOrName queryParams) in
     ret (map simplify records))
    (fun error =>
       throw (Js.newError ("Failed to list records: " +:+ Js.toString error))).

(** [getRecord.handler], lines 96-117. *)
Definition getRecord (W : World) (baseId tableIdOrName recordId : string)
    : Eff Simplified :=
  try_catch
    (let* record := await (Find baseId tableIdOrName recordId)
                          (find W baseId tableIdOrName recordId) in
     ret (simplify record))
    (fun error =>
       throw (Js.newError ("Failed to get record: " +:+ Js.toString error))).

(** [createRecord.handler], lines 136-157. *)
Definition createRecord (W : World) (baseId tableIdOrName : string)
    (fields : gmap string Js.Value) : Eff Simplified :=
  try_catch
    (let* record := await (Create baseId tableIdOrName fields)
                          (create W baseId tableIdOrName fields) in
     ret (simplify record))
    (fun error =>
       throw (Js.newError ("Failed to create record: " +:+ Js.toString error))).

(** [updateRecord.handler], lines 180-203. *)
Definition updateRecord (W : World) (baseId tableIdOrName recordId : string)
    (fields : gmap string Js.Value) : Eff Simplified :=
  try_catch
    (let* record := await (Update baseId tableIdOrName recordId fields)
                          (update W baseId tableIdOrName recordId fields) in
     ret (simplify record))
    (fun error =>
       throw (Js.newError ("Failed to update record: " +:+ Js.toString error))).

(** [deleteRecord.handler], lines 222-242: the result is
    [{id, deleted: true}], of which the id is kept. *)
Definition deleteRecord (W : World) (baseId tableIdOrName recordId : string)
    : Eff string :=
  try_catch
    (let* deletedRecord := await (Destroy baseId tableIdOrName recordId)
                                 (destroy W baseId tableIdOrName recordId) in
     ret (rec_id deletedRecord))
    (fun error =>
       throw (Js.newError ("Failed to delete record: " +:+ Js.toString error))).

(** *** The client-side search, [searchRecords.handler], lines 272-357 *)

(** Lines 287-302: fetch the tables of the base and pick the first one whose
    id or name is [tableIdOrName]. *)
Definition isTable (tableIdOrName : string) (t : Table) : bool :=
  String.eqb (table_id t) tableIdOrName || String.eqb (table_name t) tableIdOrName.

Definition lookupTable (W : World) (baseId tableIdOrName : string) : Eff Table :=
  let* schemaResponse := await (FetchTables baseId) (fetch_tables W baseId) in
  if negb (resp_ok schemaResponse) then
    throw (Js.newError ("Schema API responded with status " +:+
                        pretty (resp_status schemaResponse)))
  else
    let* tables := settle (resp_json schemaResponse) in
    match Js.find (isTable tableIdOrName) tables with
    | None => throw (Js.newError ("Table " +:+ tableIdOrName +:+ " not found"))
    | Some table => ret table
    end.

(** Lines 317-320. *)
Definition textFieldTypes : list string :=
  [ "singleLineText"; "multilineText"; "richText";
    "email"; "url"; "phone"; "multipleRecordLinks" ].

(** Lines 309-324: the names of the fields to search. *)
Definition searchFieldNames (table : Table) (fieldIds : option (list string))
    : list string :=
  match fieldIds with
  | Some ((_ :: _) as ids) =>
      map field_name
          (Js.filter (fun f => Js.arr_includes ids (field_id f)) (table_fields table))
  | _ =>
      map field_name
          (Js.filter (fun f => Js.arr_includes textFieldTypes (field_type f))
                     (table_fields table))
  end.

(** Lines 326-328. *)
Definition requireSearchable (names : list string) : Eff (list string) :=
  if (length names =? 0)%nat
  then throw (Js.newError "No searchable fields found")
  else ret names.

(** Lines 333-344: does the value of one field contain the term? *)
Definition valueMatches (searchTerm : string) (value : Js.Value) : bool :=
  match value with
  | Js.Str s => Js.includes (Js.toLowerCase s) (Js.toLowerCase searchTerm)
  | Js.Arr items =>
      Js.some (fun item =>
                 match item with
                 | Js.Str s => Js.includes (Js.toLowerCase s) (Js.toLowerCase searchTerm)
                 | _ => false
                 end) items
  | _ => false
  end.

(** Lines 331-346: the predicate handed to [records.filter]. *)
Definition recordMatches (names : list string) (searchTerm : string)
    (record : Record_) : bool :=
  Js.some (fun fieldName => valueMatches searchTerm (Js.get (rec_fields record) fieldName))
          names.

Definition searchRecords (W : World) (baseId tableIdOrName searchTerm : string)
    (fieldIds : option (list string)) (maxRecords : option Z)
    : Eff (list Simplified) :=
  let maxRecords := default 100%Z maxRecords in
  try_catch
    (let* table := lookupTable W baseId tableIdOrName in
     let query :=
       {| q_maxRecords := Given maxRecords; q_view := Absent; q_sort := Absent;
          q_fields := Absent; q_filterByFormula := Absent |} in
     let* records := await (SelectAll baseId tableIdOrName query)
                           (select_all W baseId tableIdOrName query) in
     let* names := requireSearchable (searchFieldNames table fieldIds) in
     let matchingRecords := Js.filter (recordMatches names searchTerm) records in
     ret (map simplify matchingRecords))
    (fun error =>
       throw (Js.newError ("Failed to search records: " +:+ Js.toString error))).

End Records.

(** ** The tool table, [src/modules/airtable/index.ts] *)

Module Index.

(** An invocation of one of the record tools of [airtableTools]: the key
    of the tool and its arguments.  (The two metadata tools,
    [airtable/list-bases] and [airtable/list-tables], are not record
    operations and are left out.) *)
Inductive Invocation : Type :=
| list_records (baseId tableIdOrName : string) (maxRecords : option Z)
    (view : option string) (sort : option (list SortSpec))
| get_record (baseId tableIdOrName recordId : string)
| create_record (baseId tableIdOrName : string) (fields : gmap string Js.Value)
| update_record (baseId tableIdOrName recordId : string)
    (fields : gmap string Js.Value)
| delete_record (baseId tableIdOrName recordId : string)
| search_records (baseId tableIdOrName searchTerm : string)
    (fieldIds : option (list string)) (maxRecords : option Z).

Definition key (i : Invocation) : string :=
  match i with
  | list_records _ _ _ _ _ => "airtable/list-records"
  | get_record _ _ _ => "airtable/get-record"
  | create_record _ _ _ => "airtable/create-record"
  | update_record _ _ _ _ => "airtable/update-record"
  | delete_record _ _ _ => "airtable/delete-record"
  | search_records _ _ _ _ _ => "airtable/search-records"
  end.

(** What a record tool resolves to. *)
Inductive Resolved : Type :=
| Many (records : list Records.Simplified)
| One (record : Records.Simplified)
| Deleted (id : string).

(** [adaptHandler]: the adapted handler drops its second argument. *)
Definition adaptHandler {Args Extra A} (originalHandler : Args -> Eff A)
    : Args -> Extra -> Eff A :=
  fun args _ => originalHandler args.

Definition airtableTools (W : World) (i : Invocation) : Eff Resolved :=
  adaptHandler
    (fun i =>
       match i with
       | list_records b t maxRecords view sort =>
           let* rs := Records.listRecords W b t maxRecords view sort in ret (Many rs)
       | get_record b t r =>
           let* x := Records.getRecord W b t r in ret (One x)
       | create_record b t fs =>
           let* x := Records.createRecord W b t fs in ret (One x)
       | update_record b t r fs =>
           let* x := Records.updateRecord W b t r fs in ret (One x)
       | delete_record b t r =>
           let* x := Records.deleteRecord W b t r in ret (Deleted x)
       | search_records b t term fieldIds maxRecords =>
           let* rs := Records.searchRecords W b t term fieldIds maxRecords in
           ret (Many rs)
       end)
    i tt.

End Index.

(** ** The tool-protocol server, [src/server.ts] *)

Module Server.

(** The shape the server's tools map a record to: [{id, fields}]. *)
Record IdFields := { id : string; fields : gmap string Js.Value }.

Definition idFields (record : Record_) : IdFields :=
  {| id := rec_id record; fields := rec_fields record |}.

(** A tool never throws: it returns the records, or an error-shaped object
    [{error, details?, constructedFormula?}]. *)
Inductive ToolResult : Type :=
| Records_ (records : list IdFields)
| Failure (error : string) (details constructedFormula : option string).

(** [listRecordsTool.handler], lines 110-123.  The object handed to
    [select] always has the five keys; a key the input leaves out has the
    value [undefined]. *)
Definition listRecordsTool (W : World) (baseId tableIdOrName : string)
    (view : option string) (fields : option (list string))
    (maxRecords : option Z) (filterByFormula : option string)
    (sort : option (list SortSpec)) : Eff ToolResult :=
  try_catch
    (let query :=
       {| q_view := passed view; q_fields := passed fields;
          q_maxRecords := passed maxRecords;
          q_filterByFormula := passed filterByFormula; q_sort := passed sort |} in
     let* records := await (SelectAll baseId tableIdOrName query)
                           (select_all W baseId tableIdOrName query) in
     ret (Records_ (map idFields records)))
    (fun error =>
       ret (Failure (Js.message error) (Some (Js.toString error)) None)).

(** Lines 306-309: one [FIND] per field name, joined under [OR]. *)
Definition searchFormulaParts (fieldNames : list string) (searchTerm : string)
    : list string :=
  map (fun fieldName =>
         "FIND(LOWER(" +:+ String Js.dquote (Js.replace_dquotes searchTerm) +:+
         String Js.dquote "), LOWER({" +:+ fieldName +:+ "}))")
      fieldNames.

Definition filterByFormula (fieldNames : list string) (searchTerm : string)
    : string :=
  "OR(" +:+ Js.join ", " (searchFormulaParts fieldNames searchTerm) +:+ ")".

Definition missingFieldNames : string :=
  "The 'fieldNames' array must be provided and contain at least one field name to search in.".

(** [searchRecordsTool.handler], lines 281-331. *)
Definition searchRecordsTool (W : World) (baseId tableIdOrName searchTerm : string)
    (fieldNames : option (list string)) (maxRecords : option Z)
    : Eff ToolResult :=
  let maxRecords := default 100%Z maxRecords in
  match fieldNames with
  | None | Some [] => ret (Failure missingFieldNames None None)
  | Some fieldNames =>
      try_catch
        (let query :=
           {| q_filterByFormula := Given (filterByFormula fieldNames searchTerm);
              q_maxRecords := Given maxRecords;
              q_view := Absent; q_fields := Absent; q_sort := Absent |} in
         let* records := await (SelectAll baseId tableIdOrName query)
                               (select_all W baseId tableIdOrName query) in
         ret (Records_ (map idFields records)))
        (fun error =>
           ret (Failure (Js.message error) (Some (Js.toString error))
                        (Some (filterByFormula fieldNames searchTerm))))
  end.

End Server.

(** ** The Express route [POST /airtable/list-records] *)

Module Routes.

Inductive Body : Type :=
| Json (records : list Server.IdFields)
| ErrorJson (error : string).

Record Reply := { status : N; body : Body }.

(** The handler of the route: the request body's keys may each be absent. *)
Definition listRecordsRoute (W : World) (baseId tableIdOrName : option string)
    (view : option string) (fields : option (list string))
    (maxRecords : option Z) (filterByFormula : option string)
    (sort : option (list SortSpec)) : Eff Reply :=
  match baseId, tableIdOrName with
  | Some b, Some t =>
      if Js.isEmpty b || Js.isEmpty t then
        ret {| status := 400; body := ErrorJson "baseId and tableIdOrName are required" |}
      else
        try_catch
          (let query :=
             {| q_view := Given (default EmptyString view);
                q_fields := Given (default [] fields);
                q_maxRecords := Given (default 3%Z maxRecords);
                q_filterByFormula := Given (default EmptyString filterByFormula);
                q_sort := Given (default [] sort) |} in
           let* records := await (SelectAll b t query) (select_all W b t query) in
           ret {| status := 200; body := Json (map Server.idFields records) |})
          (fun error =>
             ret {| status := 500; body := ErrorJson (Js.message error) |})
  | _, _ =>
      ret {| status := 400; body := ErrorJson "baseId and tableIdOrName are required" |}
  end.

End Routes.

(** ** The vocabulary of the specification *)

Module Spec.

(** [t] is a substring of [s]. *)
Definition occurs_in (t s : string) : Prop :=
  exists before after, s = before +:+ t +:+ after.

(** Case-insensitive containment: lowercase both sides, then compare. *)
Definition contains_ci (s t : string) : Prop :=
  occurs_in (Js.toLowerCase t) (Js.toLowerCase s).

(** The field [f] of the record holds a string that contains the term, or
    an array one of whose string elements does. *)
Definition field_hit (record : Record_) (term f : string) : Prop :=
  (exists s, rec_fields record !! f = Some (Js.Str s) /\ contains_ci s term) \/
  (exists items s, rec_fields record !! f = Some (Js.Arr items) /\
                   In (Js.Str s) items /\ contains_ci s term).


(** Quote escaping, unit by unit: a double quote becomes two. *)
Definition escape_quotes (term : string) : string :=
  string_of_list_ascii
    (flat_map (fun c => if Ascii.eqb c Js.dquote then [Js.dquote; Js.dquote] else [c])
              (list_ascii_of_string term)).

(** The sub-expression for one field: FIND of the lowercased, escaped and
    quoted term in the lowercased field reference. *)
Definition find_in_field (term f : string) : string :=
  "FIND(LOWER(" +:+ String Js.dquote (escape_quotes term) +:+
  String Js.dquote "), LOWER({" +:+ f +:+ "}))".

(** The sub-expressions of [f1 .. fn], separated by a comma and a space. *)
Fixpoint any_field (term f : string) (fs : list string) : string :=
  match fs with
  | [] => find_in_field term f
  | g :: gs => find_in_field term f +:+ ", " +:+ any_field term g gs
  end.

Definition formula (term f : string) (fs : list string) : string :=
  "OR(" +:+ any_field term f fs +:+ ")".

(** Reading a string literal back, after its opening quote, where two
    quotes in a row stand for one and a single quote closes the literal:
    the text of the literal and what follows it. *)
Fixpoint read_literal (s : string) : option (string * string) :=
  match s with
  | EmptyString => None
  | String c r =>
      if Ascii.eqb c Js.dquote then
        match r with
        | String c' r' =>
            if Ascii.eqb c' Js.dquote
            then match read_literal r' with
                 | Some (lit, rest) => Some (String Js.dquote lit, rest)
                 | None => None
                 end
            else Some (EmptyString, r)
        | EmptyString => Some (EmptyString, EmptyString)
        end
      else match read_literal r with
           | Some (lit, rest) => Some (String c lit, rest)
           | None => None
           end
  end.

(** The failure, if any, with which the remote service answers a call. *)
Definition thrown_by {A} (o : Outcome A) : option Js.Thrown :=
  match o with
  | Threw e => Some e
  | Returned _ => None
  end.

Definition failure (W : World) (c : Call) : option Js.Thrown :=
  match c with
  | FetchTables b => thrown_by (fetch_tables W b)
  | SelectAll b t q => thrown_by (select_all W b t q)
  | Find b t r => thrown_by (find W b t r)
  | Create b t fs => thrown_by (create W b t fs)
  | Update b t r fs => thrown_by (update W b t r fs)
  | Destroy b t r => thrown_by (destroy W b t r)
  end.

(** The words with which each record operation announces a failure. *)
Definition failure_prefix (i : Index.Invocation) : string :=
  match i with
  | Index.list_records _ _ _ _ _ => "Failed to list records: "
  | Index.get_record _ _ _ => "Failed to get record: "
  | Index.create_record _ _ _ => "Failed to create record: "
  | Index.update_record _ _ _ _ => "Failed to update record: "
  | Index.delete_record _ _ _ => "Failed to delete record: "
  | Index.search_records _ _ _ _ _ => "Failed to search records: "
  end.

(** What the [catch] clause of the client-side search rethrows. *)
Definition search_failure (e : Js.Thrown) : Js.Thrown :=
  Js.newError ("Failed to search records: " +:+ Js.toString e).

Definition is_select (c : Call) : bool :=
  match c with SelectAll _ _ _ => true | _ => false end.

(** The ordering invariant as the specification words it: a client-side
    search whose field resolution yields no name issues no record fetch. *)
Definition unresolved_search_never_fetches : Prop :=
  forall W b t term ids mr table,
    outcome (Records.lookupTable W b t) = Returned table ->
    Records.searchFieldNames table ids = [] ->
    forall c, In c (trace (Records.searchRecords W b t term ids mr)) ->
              is_select c = false.


(** The query of the formula search. *)
Definition formula_query (formula : string) (n : Z) : SelectParams :=
  {| q_view := Absent; q_fields := Absent; q_maxRecords := Given n;
     q_filterByFormula := Given formula; q_sort := Absent |}.

(** The query that carries only a record limit. *)
Definition limit_only (n : Z) : SelectParams :=
  {| q_view := Absent; q_fields := Absent; q_maxRecords := Given n;
     q_filterByFormula := Absent; q_sort := Absent |}.

End Spec.

(** ** A small base to run the handlers on *)

Module Demo.

Definition fld (i n t : string) : Field :=
  {| field_id := i; field_name := n; field_type := t |}.

Definition products : Table :=
  {| table_id := "tblProducts"; table_name := "Products";
     table_fields := [ fld "fldName" "Name" "singleLineText";
                       fld "fldTags" "Tags" "multipleSelects";
                       fld "fldPrice" "Price" "number" ] |}.

Definition ledger : Table :=
  {| table_id := "tblLedger"; table_name := "Ledger";
     table_fields := [ fld "fldAmount" "Amount" "number";
                       fld "fldPaid" "Paid" "checkbox" ] |}.

Definition widget : Record_ :=
  {| rec_id := "recWidget";
     rec_fields := <[ "Name" := Js.Str "Widget A" ]>
                   (<[ "Tags" := Js.Arr [Js.Str "red"; Js.Str "blue"] ]>
                    (<[ "Price" := Js.Number 12 ]> ∅));
     rec_createdTime := Js.Undefined |}.

Definition gadget : Record_ :=
  {| rec_id := "recGadget";
     rec_fields := <[ "Name" := Js.Str "Gadget" ]>
                   (<[ "Tags" := Js.Arr [Js.Str "blue"] ]> ∅);
     rec_createdTime := Js.Undefined |}.

Definition entry : Record_ :=
  {| rec_id := "recEntry";
     rec_fields := <[ "Amount" := Js.Number 40 ]> (<[ "Paid" := Js.Bool true ]> ∅);
     rec_createdTime := Js.Undefined |}.

(** A table with more rows than any default limit. *)
Definition stock : list Record_ := repeat gadget 150.

(** The term [He said "hi"], and the formula expected for it over the
    field [Name]. *)
Definition quoted_term : string :=
  "He said " +:+ String Js.dquote ("hi" +:+ String Js.dquote EmptyString).

Definition quoted_formula : string :=
  "OR(FIND(LOWER(" +:+
  String Js.dquote
    ("He said " +:+
     String Js.dquote (String Js.dquote
       ("hi" +:+
        String Js.dquote (String Js.dquote
          (String Js.dquote "), LOWER({Name})))"))))).

Definition not_found : Js.Thrown :=
  Js.AirtableError "NOT_FOUND" "Could not find what you are looking for" (Some 404%N).

Definition take (limit : option Z) (rs : list Record_) : list Record_ :=
  match limit with
  | Some n => firstn (Z.to_nat n) rs
  | None => rs
  end.

(** The SDK's refusal of a query with an undefined-valued key, which it
    raises before any request is sent (its wording is longer and names the
    keys). *)
Definition refused : Js.Thrown :=
  Js.newError "Airtable: invalid parameters for `select`".

(** The base [appShop] has the tables [Products], [Ledger] and [Stock]; the
    base [appLocked] refuses the metadata request; any other base is
    unreachable.  A query with an undefined-valued key is refused. *)
Definition world : World :=
  {| fetch_tables b :=
       if String.eqb b "appShop" then
         Returned {| resp_ok := true; resp_status := 200;
                     resp_json := Returned [products; ledger] |}
       else if String.eqb b "appLocked" then
         Returned {| resp_ok := false; resp_status := 403;
                     resp_json := Returned [] |}
       else Threw (Js.NativeError "TypeError" "fetch failed");
     select_all b t q :=
       if has_undefined q then Threw refused
       else if String.eqb t "Products" || String.eqb t "tblProducts"
       then Returned (take (supplied (q_maxRecords q)) [widget; gadget])
       else if String.eqb t "Ledger" || String.eqb t "tblLedger"
       then Returned (take (supplied (q_maxRecords q)) [entry])
       else if String.eqb t "Stock"
       then Returned (take (supplied (q_maxRecords q)) stock)
       else Threw not_found;
     find b t r :=
       if String.eqb r "recWidget" then Returned widget else Threw not_found;
     create b t fs :=
       Returned {| rec_id := "recNew"; rec_fields := fs;
                   rec_createdTime := Js.Undefined |};
     update b t r fs :=
       if String.eqb r "recWidget"
       then Returned {| rec_id := r; rec_fields := fs ∪ rec_fields widget;
                        rec_createdTime := Js.Undefined |}
       else Threw not_found;
     destroy b t r :=
       if String.eqb r "recWidget" then Returned widget else Threw not_found |}.

End Demo.

(** ** Effects over other sets of remote calls *)

Module Wide.

(** [Eff] again, for handlers whose remote calls are of type [C]. *)
Definition Eff (C A : Type) : Type := list C -> list C * Outcome A.

Definition ret {C A} (a : A) : Eff C A := fun tr => (tr, Returned a).

Definition throw {C A} (e : Js.Thrown) : Eff C A := fun tr => (tr, Threw e).

Definition bind {C A B} (m : Eff C A) (k : A -> Eff C B) : Eff C B :=
  fun tr =>
    match m tr with
    | (tr', Returned a) => k a tr'
    | (tr', Threw e) => (tr', Threw e)
    end.

Definition try_catch {C A} (m : Eff C A) (h : Js.Thrown -> Eff C A) : Eff C A :=
  fun tr =>
    match m tr with
    | (tr', Returned a) => (tr', Returned a)
    | (tr', Threw e) => h e tr'
    end.

Definition settle {C A} (o : Outcome A) : Eff C A := fun tr => (tr, o).

Definition await {C A} (c : C) (o : Outcome A) : Eff C A :=
  fun tr => ((tr ++ [c])%list, o).

Definition run {C A} (m : Eff C A) : list C * Outcome A := m [].

Definition trace {C A} (m : Eff C A) : list C := fst (run m).

Definition outcome {C A} (m : Eff C A) : Outcome A := snd (run m).

End Wide.

Notation "'let+' x ':=' m 'in' k" := (Wide.bind m (fun x => k))
  (at level 10, x name, m at level 100, k at level 200).

(** ** The metadata tools: [listBases] and [src/modules/airtable/tables.ts] *)

Module Meta.

Inductive Call : Type :=
| FetchBases
| FetchTables (baseId : string).

(** The response of [fetch] and what its [json()] settles to. *)
Record Reply (B : Type) := { ok : bool; status : N; json : Outcome B }.
Arguments ok {B} r.
Arguments status {B} r.
Arguments json {B} r.

(** A table object of the answer: its own properties, and its [fields]
    array of field objects. *)
Record TableObject := {
  props : gmap string Js.Value;
  field_objects : list (gmap string Js.Value)
}.

Record World := {
  fetch_bases : Outcome (Reply (list (gmap string Js.Value)));
  fetch_tables : string -> Outcome (Reply (list TableObject))
}.

Record BaseInfo := {
  base_id : Js.Value;
  base_name : Js.Value;
  base_permissionLevel : Js.Value
}.

Record FieldInfo := {
  fld_id : Js.Value;
  fld_name : Js.Value;
  fld_type : Js.Value;
  fld_description : Js.Value
}.

Record TableInfo := {
  tbl_id : Js.Value;
  tbl_name : Js.Value;
  tbl_description : Js.Value;
  tbl_fields : list FieldInfo
}.

Definition baseInfo (base : gmap string Js.Value) : BaseInfo :=
  {| base_id := Js.get base "id";
     base_name := Js.get base "name";
     base_permissionLevel := Js.get base "permissionLevel" |}.

Definition fieldInfo (field : gmap string Js.Value) : FieldInfo :=
  {| fld_id := Js.get field "id";
     fld_name := Js.get field "name";
     fld_type := Js.get field "type";
     fld_description := Js.get field "description" |}.

Definition tableInfo (table : TableObject) : TableInfo :=
  {| tbl_id := Js.get (props table) "id";
     tbl_name := Js.get (props table) "name";
     tbl_description := Js.get (props table) "description";
     tbl_fields := map fieldInfo (field_objects table) |}.

(** [listBases.handler], lines 16-38 of its file. *)
Definition listBases (W : World) : Wide.Eff Call (list BaseInfo) :=
  Wide.try_catch
    (let+ response := Wide.await FetchBases (fetch_bases W) in
     if negb (ok response) then
       Wide.throw (Js.newError ("API responded with status " +:+
                                pretty (status response)))
     else
       let+ bases := Wide.settle (json response) in
       Wide.ret (map baseInfo bases))
    (fun error =>
       Wide.throw (Js.newError ("Failed to list bases: " +:+ Js.toString error))).

(** [listTables.handler], [tables.ts] lines 21-49. *)
Definition listTables (W : World) (baseId : string) : Wide.Eff Call (list TableInfo) :=
  Wide.try_catch
    (let+ response := Wide.await (FetchTables baseId) (fetch_tables W baseId) in
     if negb (ok response) then
       Wide.throw (Js.newError ("API responded with status " +:+
                                pretty (status response)))
     else
       let+ tables := Wide.settle (json response) in
       Wide.ret (map tableInfo tables))
    (fun error =>
       Wide.throw (Js.newError ("Failed to list tables: " +:+ Js.toString error))).

End Meta.

(** ** The other tools of [src/server.ts] *)

Module ServerCrud.

(** Besides the calls of [Airtable.Call], the server's tools use the batch
    forms of create, update and destroy, which take and answer arrays. *)
Inductive Call : Type :=
| Basic (c : Airtable.Call)
| CreateMany (baseId table : string) (rows : list (gmap string Js.Value))
| UpdateMany (baseId table : string) (rows : list (string * gmap string Js.Value))
| DestroyMany (baseId table : string) (recordIds : list string).

Record World := {
  basic : Airtable.World;
  create_many : string -> string -> list (gmap string Js.Value) -> Outcome (list Record_);
  update_many : string -> string -> list (string * gmap string Js.Value) ->
                Outcome (list Record_);
  destroy_many : string -> string -> list string -> Outcome (list Record_)
}.

(** What the tools return: the advice of the table-listing tool; a record
    [{id, fields}]; element 0 of a mapped array, which is [undefined] for an
    empty array; [{deleted: true, id}] with the id likewise; or the
    error-shaped object. *)
Inductive Result : Type :=
| Advice (message tip : string)
| One (record : Server.IdFields)
| First (record : option Server.IdFields)
| Removed (id : option string)
| Failed (error : string) (details : option string).

Definition tablesAdvice : string :=
  "Cannot directly list all tables for a base programmatically without Airtable's Metadata API (Enterprise). Please provide the specific table name or ID you want to interact with.".

Definition tablesTip : string :=
  "You can find table names and IDs in your Airtable base URL or by inspecting network requests when using Airtable.".

(** [listTablesTool.handler], lines 38-62. *)
Definition listTablesTool (W : World) (baseId : string) : Wide.Eff Call Result :=
  Wide.try_catch
    (Wide.ret (Advice tablesAdvice tablesTip))
    (fun error => Wide.ret (Failed (Js.message error) None)).

(** [getRecordTool.handler], lines 138-152. *)
Definition getRecordTool (W : World) (baseId tableIdOrName recordId : string)
    : Wide.Eff Call Result :=
  Wide.try_catch
    (let+ record := Wide.await (Basic (Find baseId tableIdOrName recordId))
                               (find (basic W) baseId tableIdOrName recordId) in
     Wide.ret (One (Server.idFields record)))
    (fun error =>
       Wide.ret (Failed (Js.message error) (Some (Js.toString error)))).

(** [createRecordTool.handler], lines 172-187. *)
Definition createRecordTool (W : World) (baseId tableIdOrName : string)
    (fields : gmap string Js.Value) : Wide.Eff Call Result :=
  Wide.try_catch
    (let+ createdRecords := Wide.await (CreateMany baseId tableIdOrName [fields])
                                       (create_many W baseId tableIdOrName [fields]) in
     Wide.ret (First (head (map Server.idFields createdRecords))))
    (fun error =>
       Wide.ret (Failed (Js.message error) (Some (Js.toString error)))).

(** [updateRecordTool.handler], lines 208-224. *)
Definition updateRecordTool (W : World) (baseId tableIdOrName recordId : string)
    (fields : gmap string Js.Value) : Wide.Eff Call Result :=
  Wide.try_catch
    (let+ updatedRecords :=
       Wide.await (UpdateMany baseId tableIdOrName [(recordId, fields)])
                  (update_many W baseId tableIdOrName [(recordId, fields)]) in
     Wide.ret (First (head (map Server.idFields updatedRecords))))
    (fun error =>
       Wide.ret (Failed (Js.message error) (Some (Js.toString error)))).

(** [deleteRecordTool.handler], lines 239-254. *)
Definition deleteRecordTool (W : World) (baseId tableIdOrName recordId : string)
    : Wide.Eff Call Result :=
  Wide.try_catch
    (let+ deletedRecords := Wide.await (DestroyMany baseId tableIdOrName [recordId])
                                       (destroy_many W baseId tableIdOrName [recordId]) in
     Wide.ret (Removed (head (map rec_id deletedRecords))))
    (fun error =>
       Wide.ret (Failed (Js.message error) (Some (Js.toString error)))).

End ServerCrud.

(** ** The Express route [POST /openai/completions] *)

Module Completions.

(** Truthiness of a JSON value. *)
Definition truthy (v : Js.Value) : bool :=
  match v with
  | Js.Undefined | Js.Null => false
  | Js.Bool b => b
  | Js.Number n => negb (n =? 0)%Z
  | Js.Str s => negb (Js.isEmpty s)
  | Js.Arr _ | Js.Obj _ => true
  end.

(** A destructuring default: it replaces [undefined] only. *)
Definition defaulted (v d : Js.Value) : Js.Value :=
  match v with
  | Js.Undefined => d
  | _ => v
  end.

Record Message := { role : string; content : Js.Value }.

Record Request := {
  model : Js.Value;
  messages : list Message;
  max_tokens : Js.Value
}.

Inductive Call : Type :=
| CreateCompletion (request : Request).

Record World := { create_completion : Request -> Outcome Js.Value }.

Inductive Body : Type :=
| Forwarded (response : Js.Value)
| ErrorJson (error : string).

Record Reply := { status : N; body : Body }.

(** The handler of the route; [reqBody] is the parsed request body. *)
Definition completionsRoute (W : World) (reqBody : gmap string Js.Value)
    : Wide.Eff Call Reply :=
  Wide.try_catch
    (let prompt := Js.get reqBody "prompt" in
     let model := defaulted (Js.get reqBody "model") (Js.Str "gpt-4o-mini") in
     let max_tokens := defaulted (Js.get reqBody "max_tokens") (Js.Number 300) in
     if negb (truthy prompt) then
       Wide.ret {| status := 400; body := ErrorJson "prompt is required" |}
     else
       let request :=
         {| model := model;
            messages := [ {| role := "user"; content := prompt |} ];
            max_tokens := max_tokens |} in
       let+ response := Wide.await (CreateCompletion request)
                                   (create_completion W request) in
       Wide.ret {| status := 200; body := Forwarded response |})
    (fun error =>
       Wide.ret {| status := 500; body := ErrorJson (Js.message error) |}).

End Completions.

(** ** Sample answers for the other handlers *)

Module Sample.

Definition shop : gmap string Js.Value :=
  <[ "id" := Js.Str "appShop" ]>
  (<[ "name" := Js.Str "Shop" ]>
   (<[ "permissionLevel" := Js.Str "create" ]>
    (<[ "color" := Js.Str "blue" ]> ∅))).

Definition products : Meta.TableObject :=
  {| Meta.props := <[ "id" := Js.Str "tblProducts" ]>
                   (<[ "name" := Js.Str "Products" ]>
                    (<[ "primaryFieldId" := Js.Str "fldName" ]> ∅));
     Meta.field_objects :=
       [ <[ "id" := Js.Str "fldName" ]>
         (<[ "name" := Js.Str "Name" ]> (<[ "type" := Js.Str "singleLineText" ]> ∅)) ] |}.

Definition meta : Meta.World :=
  {| Meta.fetch_bases :=
       Returned {| Meta.ok := true; Meta.status := 200;
                   Meta.json := Returned [shop] |};
     Meta.fetch_tables b :=
       if String.eqb b "appShop" then
         Returned {| Meta.ok := true; Meta.status := 200;
                     Meta.json := Returned [products] |}
       else
         Returned {| Meta.ok := false; Meta.status := 404;
                     Meta.json := Returned [] |} |}.

Definition crud : ServerCrud.World :=
  {| ServerCrud.basic := Demo.world;
     ServerCrud.create_many b t rows :=
       Returned (map (fun fs => {| rec_id := "recNew"; rec_fields := fs;
                                   rec_createdTime := Js.Undefined |}) rows);
     ServerCrud.update_many b t rows := Threw Demo.not_found;
     ServerCrud.destroy_many b t ids :=
       if Js.arr_includes ids "recWidget" then Returned [Demo.widget]
       else Threw Demo.not_found |}.

Definition echo : Completions.World :=
  {| Completions.create_completion r :=
       match Completions.model r with
       | Js.Str _ => Returned (Js.Str "ok")
       | _ => Threw (Js.NativeError "BadRequestError" "400 model must be a string")
       end |}.

End Sample.

(** ** Reads and writes *)

Module Writes.

(** The calls that change the remote base. *)
Definition is_write (c : Call) : bool :=
  match c with
  | Create _ _ _ | Update _ _ _ _ | Destroy _ _ _ => true
  | FetchTables _ | SelectAll _ _ _ | Find _ _ _ => false
  end.

(** The one write an invocation asks for, if any. *)
Definition requested (i : Index.Invocation) : option Call :=
  match i with
  | Index.create_record b t fs => Some (Create b t fs)
  | Index.update_record b t r fs => Some (Update b t r fs)
  | Index.delete_record b t r => Some (Destroy b t r)
  | Index.list_records _ _ _ _ _ | Index.get_record _ _ _
  | Index.search_records _ _ _ _ _ => None
  end.

(** The record limit a list of calls asks for, call by call. *)
Definition limits (tr : list Call) : list (option Z) :=
  flat_map (fun c => match c with
                     | SelectAll _ _ q => [supplied (q_maxRecords q)]
                     | _ => []
                     end) tr.

End Writes.

(** ** Record limits *)

Module Limits.



End Limits.

(** * Properties *)

Example lower_demo : Js.toLowerCase "Widget A" = "widget a".
Proof. reflexivity. Qed.

Example tostring_demo :
  Js.toString Demo.not_found
  = "Could not find what you are looking for(NOT_FOUND)[Http code 404]".
Proof. vm_compute. reflexivity. Qed.

Example search_red_in_tags :
  outcome (Records.searchRecords Demo.world "appShop" "Products" "red"
             (Some ["fldTags"]) None)
  = Returned [Records.simplify Demo.widget].
Proof. vm_compute. reflexivity. Qed.

Example search_unsearchable :
  run (Records.searchRecords Demo.world "appShop" "Ledger" "x" None None)
  = ([FetchTables "appShop"; SelectAll "appShop" "Ledger" (Spec.limit_only 100)],
     Threw (Js.newError "Failed to search records: Error: No searchable fields found")).
Proof. vm_compute. reflexivity. Qed.

Example delete_missing :
  run (Records.deleteRecord Demo.world "appShop" "Products" "recNope")
  = ([Destroy "appShop" "Products" "recNope"],
     Threw (Js.newError "Failed to delete record: Could not find what you are looking for(NOT_FOUND)[Http code 404]")).
Proof. vm_compute. reflexivity. Qed.

(** ** Facts about the runtime fragment *)

Section RuntimeFacts.

Lemma append_cons (x : ascii) (a b : string) :
  String x a +:+ b = String x (a +:+ b).
Proof. reflexivity. Qed.

Lemma append_empty_l (a : string) : EmptyString +:+ a = a.
Proof. reflexivity. Qed.

Lemma append_assoc (a b c : string) : (a +:+ b) +:+ c = a +:+ b +:+ c.
Proof.
  induction a as [|x a IH]; [reflexivity |].
  rewrite !append_cons. now rewrite IH.
Qed.

Lemma append_empty_r (a : string) : a +:+ EmptyString = a.
Proof.
  induction a as [|x a IH]; [reflexivity |].
  rewrite append_cons. now rewrite IH.
Qed.

Lemma startsWith_spec (s t : string) :
  Js.startsWith s t = true <-> exists after, s = t +:+ after.
Proof.
  revert s; induction t as [|b t IH]; intros s.
  - destruct s; simpl; (split; [intros _; eexists; reflexivity | reflexivity]).
  - destruct s as [|a s]; simpl.
    + split; [discriminate | intros [after H]; discriminate].
    + rewrite andb_true_iff, Ascii.eqb_eq, IH. split.
      * intros [-> [after ->]]. now exists after.
      * intros [after H]. rewrite append_cons in H. injection H as -> ->. eauto.
Qed.

Lemma includes_spec (s t : string) :
  Js.includes s t = true <-> Spec.occurs_in t s.
Proof.
  unfold Spec.occurs_in. induction s as [|a s IH].
  - change (Js.includes EmptyString t)
      with (Js.startsWith EmptyString t || false).
    rewrite orb_false_r, startsWith_spec. split.
    + intros [after H]. now exists EmptyString, after.
    + intros [before [after H]]. destruct before; [eauto | discriminate].
  - change (Js.includes (String a s) t)
      with (Js.startsWith (String a s) t || Js.includes s t).
    rewrite orb_true_iff, startsWith_spec, IH. split.
    + intros [[after H] | [before [after H]]].
      * now exists EmptyString, after.
      * exists (String a before), after. rewrite append_cons. now rewrite H.
    + intros [before [after H]]. destruct before as [|c before].
      * left. now exists after.
      * right. rewrite append_cons in H. injection H as _ H. eauto.
Qed.

Lemma includes_empty (s : string) : Js.includes s EmptyString = true.
Proof. apply includes_spec. exists EmptyString, s. reflexivity. Qed.

Lemma some_spec {A} (p : A -> bool) (xs : list A) :
  Js.some p xs = true <-> exists x, In x xs /\ p x = true.
Proof.
  induction xs as [|x xs IH]; simpl.
  - split; [discriminate | intros [x [[] _]]].
  - destruct (p x) eqn:Hx.
    + split; eauto.
    + rewrite IH. split.
      * intros [y [Hy Hp]]. eauto.
      * intros [y [[<- | Hy] Hp]]; [congruence | eauto].
Qed.

Lemma filter_spec {A} (p : A -> bool) (xs : list A) (x : A) :
  In x (Js.filter p xs) <-> In x xs /\ p x = true.
Proof.
  induction xs as [|y xs IH]; simpl; [tauto |].
  destruct (p y) eqn:Hy; simpl; rewrite IH; split.
  - intros [<- | [H1 H2]]; auto.
  - intros [[<- | H1] H2]; auto.
  - intros [H1 H2]; auto.
  - intros [[<- | H1] H2]; [congruence | auto].
Qed.

Lemma filter_sublist {A} (p : A -> bool) (xs : list A) :
  sublist (Js.filter p xs) xs.
Proof.
  induction xs as [|y xs IH]; simpl; [constructor |].
  destruct (p y); now constructor.
Qed.

Lemma map_sublist {A B} (f : A -> B) (xs ys : list A) :
  sublist xs ys -> sublist (map f xs) (map f ys).
Proof. induction 1; simpl; now constructor. Qed.

Lemma find_none {A} (p : A -> bool) (xs : list A) :
  Js.find p xs = None <-> forall x, In x xs -> p x = false.
Proof.
  induction xs as [|y xs IH]; simpl; [tauto |].
  destruct (p y) eqn:Hy.
  - split; [discriminate | intros H; specialize (H y (or_introl eq_refl)); congruence].
  - rewrite IH. split.
    + intros H x [<- | Hx]; auto.
    + intros H x Hx. auto.
Qed.

(** [find] returns the first element that satisfies the predicate. *)
Lemma find_some {A} (p : A -> bool) (xs : list A) (x : A) :
  Js.find p xs = Some x <->
  exists before after,
    xs = (before ++ x :: after)%list /\ p x = true /\
    forall y, In y before -> p y = false.
Proof.
  induction xs as [|y xs IH]; simpl.
  - split; [discriminate | intros [[|? ?] [? [? _]]]; discriminate].
  - destruct (p y) eqn:Hy.
    + split.
      * intros [= <-]. exists [], xs. simpl. tauto.
      * intros [[|z before] [after [Heq [Hp Hb]]]]; simpl in Heq.
        -- now injection Heq as ->.
        -- injection Heq as Hz _. subst z.
           specialize (Hb y (or_introl eq_refl)). congruence.
    + rewrite IH. split.
      * intros [before [after [-> [Hp Hb]]]].
        exists (y :: before), after. simpl. split; [reflexivity |].
        split; [assumption |]. intros z [<- | Hz]; auto.
      * intros [[|z before] [after [Heq [Hp Hb]]]]; simpl in Heq.
        -- injection Heq as -> _. congruence.
        -- injection Heq as Hz Hxs. subst z xs. exists before, after.
           split; [reflexivity |]. split; [assumption |].
           intros w Hw. apply Hb. now right.
Qed.

Lemma arr_includes_spec (xs : list string) (x : string) :
  Js.arr_includes xs x = true <-> In x xs.
Proof.
  unfold Js.arr_includes. rewrite some_spec. split.
  - intros [y [Hy Heq]]. apply String.eqb_eq in Heq. now subst.
  - intros H. exists x. split; [assumption | apply String.eqb_refl].
Qed.

End RuntimeFacts.

(** ** The match evaluator *)

Lemma valueMatches_spec (term : string) (v : Js.Value) :
  Records.valueMatches term v = true <->
  (exists s, v = Js.Str s /\ Spec.contains_ci s term) \/
  (exists items s, v = Js.Arr items /\ In (Js.Str s) items /\ Spec.contains_ci s term).
Proof.
  unfold Spec.contains_ci. destruct v; simpl;
    try (split; [discriminate | intros [[? [? _]] | [? [? [? _]]]]; discriminate]).
  - rewrite includes_spec. split.
    + intros H. left. eauto.
    + intros [[? [[= <-] H]] | [? [? [? _]]]]; [assumption | discriminate].
  - rewrite some_spec. split.
    + intros [item [Hin Hitem]]. right. destruct item; try discriminate.
      apply includes_spec in Hitem. eauto 6.
    + intros [[? [? _]] | [items' [s [[= <-] [Hin H]]]]]; [discriminate |].
      exists (Js.Str s). split; [assumption | now apply includes_spec].
Qed.

Lemma get_some (o : gmap string Js.Value) (k : string) (v : Js.Value) :
  v <> Js.Undefined -> (Js.get o k = v <-> o !! k = Some v).
Proof.
  intros Hv. unfold Js.get. destruct (o !! k) as [w|]; simpl.
  - split; congruence.
  - split; [congruence | discriminate].
Qed.

(** C1. The match evaluator accepts a record exactly when one of the
    resolved field names maps, in the record, to a string that contains the
    term case-insensitively, or to an array with a string element that does.
    Numbers, booleans, objects, null and missing values, and the non-string
    elements of an array, are on neither side of the equivalence: they never
    make a match. *)
Theorem match_evaluator_iff (record : Record_) (names : list string) (term : string) :
  Records.recordMatches names term record = true <->
  exists f, In f names /\ Spec.field_hit record term f.
Proof.
  unfold Records.recordMatches, Spec.field_hit. rewrite some_spec.
  split; intros [f [Hf H]]; exists f; (split; [assumption |]).
  - apply valueMatches_spec in H.
    destruct H as [[s [Hs Hc]] | [items [s [Hs [Hin Hc]]]]].
    + left. exists s. split; [| assumption]. now apply get_some in Hs.
    + right. exists items, s. repeat split; try assumption. now apply get_some in Hs.
  - apply valueMatches_spec.
    destruct H as [[s [Hs Hc]] | [items [s [Hs [Hin Hc]]]]].
    + left. exists s. split; [| assumption]. now apply get_some.
    + right. exists items, s. repeat split; try assumption. now apply get_some.
Qed.

(** Values that are neither strings nor arrays never match, whatever the
    term. *)
Lemma other_values_never_match (term : string) (v : Js.Value) :
  Js.isString v = false -> Js.isArray v = false ->
  Records.valueMatches term v = false.
Proof. destruct v; simpl; congruence. Qed.

(** The non-string elements of an array are ignored. *)
Lemma non_strings_ignored (term : string) (items : list Js.Value) :
  Records.valueMatches term (Js.Arr items)
  = Records.valueMatches term (Js.Arr (Js.filter Js.isString items)).
Proof.
  simpl. induction items as [|x items IH]; simpl; [reflexivity |].
  destruct x; simpl; try assumption.
  now rewrite IH.
Qed.

Example match_red :
  Records.recordMatches ["Tags"] "RED" Demo.widget = true /\
  Records.recordMatches ["Tags"] "red" Demo.gadget = false /\
  Records.recordMatches ["Price"; "Missing"] "1" Demo.widget = false.
Proof. vm_compute. auto. Qed.

(** ** The field resolver *)

Lemma names_of_filter (p : Field -> bool) (fs : list Field) (n : string) :
  In n (map field_name (Js.filter p fs)) <->
  exists f, In f fs /\ p f = true /\ field_name f = n.
Proof.
  rewrite in_map_iff. split.
  - intros [f [Hn Hf]]. apply filter_spec in Hf. destruct Hf. eauto.
  - intros [f [Hf [Hp Hn]]]. exists f. split; [assumption |].
    apply filter_spec. auto.
Qed.

Lemma textFieldTypes_spec (ty : string) :
  Js.arr_includes Records.textFieldTypes ty = true <->
  ty = "singleLineText" \/ ty = "multilineText" \/ ty = "richText" \/
  ty = "email" \/ ty = "url" \/ ty = "phone" \/ ty = "multipleRecordLinks".
Proof.
  rewrite arr_includes_spec. unfold Records.textFieldTypes. simpl.
  intuition congruence.
Qed.

Lemma requireSearchable_outcome (names : list string) :
  outcome (Records.requireSearchable names)
  = match names with
    | [] => Threw (Js.newError "No searchable fields found")
    | _ :: _ => Returned names
    end.
Proof. destruct names; reflexivity. Qed.

(** C2. With a non-empty list of field ids the resolver gives exactly the
    names of the schema fields whose id is listed (an id that names no field
    adds nothing and raises nothing); with an absent or empty list it gives
    exactly the names of the fields whose type is single-line text, multiline
    text, rich text, email, url, phone or linked record; and in both cases the
    no-searchable-fields error is raised exactly when no name results. *)
Theorem field_resolver_spec (table : Table) :
  (forall i ids n,
     In n (Records.searchFieldNames table (Some (i :: ids))) <->
     exists f, In f (table_fields table) /\ In (field_id f) (i :: ids) /\
               field_name f = n) /\
  (forall n,
     In n (Records.searchFieldNames table None) <->
     exists f, In f (table_fields table) /\
               (field_type f = "singleLineText" \/ field_type f = "multilineText" \/
                field_type f = "richText" \/ field_type f = "email" \/
                field_type f = "url" \/ field_type f = "phone" \/
                field_type f = "multipleRecordLinks") /\
               field_name f = n) /\
  Records.searchFieldNames table (Some []) = Records.searchFieldNames table None /\
  (forall ids,
     (outcome (Records.requireSearchable (Records.searchFieldNames table ids))
      = Threw (Js.newError "No searchable fields found") <->
      Records.searchFieldNames table ids = []) /\
     (outcome (Records.requireSearchable (Records.searchFieldNames table ids))
      = Returned (Records.searchFieldNames table ids) <->
      Records.searchFieldNames table ids <> [])).
Proof.
  repeat split.
  - intros H. apply names_of_filter in H. destruct H as [f [Hf [Hp Hn]]].
    apply arr_includes_spec in Hp. eauto.
  - intros [f [Hf [Hp Hn]]]. apply names_of_filter. exists f.
    rewrite arr_includes_spec. auto.
  - intros H. apply names_of_filter in H. destruct H as [f [Hf [Hp Hn]]].
    apply textFieldTypes_spec in Hp. eauto.
  - intros [f [Hf [Hp Hn]]]. apply names_of_filter. exists f.
    rewrite textFieldTypes_spec. auto.
  - rewrite requireSearchable_outcome.
    destruct (Records.searchFieldNames table ids); [reflexivity | discriminate].
  - intros ->. reflexivity.
  - rewrite requireSearchable_outcome.
    destruct (Records.searchFieldNames table ids); [discriminate | discriminate].
  - rewrite requireSearchable_outcome.
    destruct (Records.searchFieldNames table ids); [congruence | reflexivity].
Qed.

Example resolve_demo :
  Records.searchFieldNames Demo.products None = ["Name"] /\
  Records.searchFieldNames Demo.products (Some []) = ["Name"] /\
  Records.searchFieldNames Demo.products (Some ["fldTags"; "fldGone"]) = ["Tags"] /\
  Records.searchFieldNames Demo.products (Some ["fldGone"]) = [] /\
  Records.searchFieldNames Demo.ledger None = [].
Proof. vm_compute. auto 6. Qed.

(** ** Running the client-side search *)

Lemma lookupTable_run (W : World) (b X : string) :
  run (Records.lookupTable W b X)
  = ([FetchTables b],
     match fetch_tables W b with
     | Threw e => Threw e
     | Returned resp =>
         if resp_ok resp then
           match resp_json resp with
           | Threw e => Threw e
           | Returned tables =>
               match Js.find (Records.isTable X) tables with
               | None => Threw (Js.newError ("Table " +:+ X +:+ " not found"))
               | Some table => Returned table
               end
           end
         else Threw (Js.newError ("Schema API responded with status " +:+
                                  pretty (resp_status resp)))
     end).
Proof.
  unfold run, Records.lookupTable, bind, await, settle. simpl.
  destruct (fetch_tables W b) as [resp | e]; [| reflexivity].
  destruct (resp_ok resp); simpl; [| reflexivity].
  destruct (resp_json resp) as [tables | e]; [| reflexivity].
  destruct (Js.find (Records.isTable X) tables); reflexivity.
Qed.

Lemma searchRecords_run (W : World) (b X term : string)
    (ids : option (list string)) (mr : option Z) :
  run (Records.searchRecords W b X term ids mr)
  = match outcome (Records.lookupTable W b X) with
    | Threw e => ([FetchTables b], Threw (Spec.search_failure e))
    | Returned table =>
        ([FetchTables b; SelectAll b X (Spec.limit_only (default 100%Z mr))],
         match select_all W b X (Spec.limit_only (default 100%Z mr)) with
         | Threw e => Threw (Spec.search_failure e)
         | Returned records =>
             match Records.searchFieldNames table ids with
             | [] => Threw (Spec.search_failure (Js.newError "No searchable fields found"))
             | names =>
                 Returned (map Records.simplify
                             (Js.filter (Records.recordMatches names term) records))
             end
         end)
    end.
Proof.
  unfold outcome. pose proof (lookupTable_run W b X) as Hl.
  unfold run in *. unfold Records.searchRecords, try_catch, bind at 1.
  rewrite Hl. simpl snd.
  match goal with
  | |- context [match ?o with Returned _ => _ | Threw _ => _ end] =>
      destruct o as [table | e] eqn:Ho
  end; [| reflexivity].
  unfold bind, await, Spec.limit_only. simpl.
  destruct (select_all W b X _) as [records | e]; [| reflexivity].
  unfold Records.requireSearchable.
  destruct (Records.searchFieldNames table ids); reflexivity.
Qed.

Lemma toString_newError (c : ascii) (rest : string) :
  Js.toString (Js.newError (String c rest)) = "Error: " +:+ String c rest.
Proof. reflexivity. Qed.

(** ** Resolution comes after the record fetch *)

(** C3, as stated, fails: on the [Ledger] table, which has no text-like
    field, the search resolves no field name and yet has fetched the records
    before it fails. *)
Lemma unresolved_search_fetches_first : ~ Spec.unresolved_search_never_fetches.
Proof.
  intros H.
  specialize (H Demo.world "appShop" "Ledger" "x" None None Demo.ledger).
  specialize (H eq_refl eq_refl (SelectAll "appShop" "Ledger" (Spec.limit_only 100))).
  assert (Hin : In (SelectAll "appShop" "Ledger" (Spec.limit_only 100))
                   (trace (Records.searchRecords Demo.world "appShop" "Ledger" "x"
                             None None))).
  { unfold trace. rewrite searchRecords_run. vm_compute. auto. }
  specialize (H Hin). discriminate H.
Qed.

(** C3, amended. A client-side search whose schema lookup succeeds and whose
    field resolution yields no name always fails and returns no record, but
    only after the record fetch: the record page is requested right after the
    schema lookup, before the fields are resolved.  When that fetch succeeds
    the failure is the no-searchable-fields error, and nothing is filtered. *)
Theorem unresolved_search_fails_after_fetch (W : World) (b t term : string)
    (ids : option (list string)) (mr : option Z) (table : Table) :
  outcome (Records.lookupTable W b t) = Returned table ->
  Records.searchFieldNames table ids = [] ->
  trace (Records.searchRecords W b t term ids mr)
  = [FetchTables b; SelectAll b t (Spec.limit_only (default 100%Z mr))] /\
  (exists e, outcome (Records.searchRecords W b t term ids mr) = Threw e) /\
  (forall records,
     select_all W b t (Spec.limit_only (default 100%Z mr)) = Returned records ->
     outcome (Records.searchRecords W b t term ids mr)
     = Threw (Js.newError
                "Failed to search records: Error: No searchable fields found")).
Proof.
  intros Hl Hn.
  pose proof (searchRecords_run W b t term ids mr) as Hr.
  rewrite Hl, Hn in Hr. unfold trace, outcome. rewrite Hr. simpl.
  split; [reflexivity |].
  destruct (select_all W b t _) as [records | e].
  - split; [eauto |]. intros ? _. reflexivity.
  - split; [eauto |]. intros ? [=].
Qed.

Lemma unresolved_search_fails_after_fetch_witness :
  trace (Records.searchRecords Demo.world "appShop" "Ledger" "x" None None)
  = [FetchTables "appShop"; SelectAll "appShop" "Ledger" (Spec.limit_only 100)] /\
  exists e, outcome (Records.searchRecords Demo.world "appShop" "Ledger" "x" None None)
            = Threw e.
Proof.
  destruct (unresolved_search_fails_after_fetch Demo.world "appShop" "Ledger" "x"
              None None Demo.ledger eq_refl eq_refl) as [Ht [He _]].
  split; [exact Ht | exact He].
Defined.

(** ** Running the single-call handlers *)

Ltac destruct_answer :=
  match goal with
  | |- context [select_all ?W ?b ?t ?q] => destruct (select_all W b t q)
  | |- context [find ?W ?b ?t ?r] => destruct (find W b t r)
  | |- context [create ?W ?b ?t ?fs] => destruct (create W b t fs)
  | |- context [update ?W ?b ?t ?r ?fs] => destruct (update W b t r fs)
  | |- context [destroy ?W ?b ?t ?r] => destruct (destroy W b t r)
  end.

Ltac run_single_call :=
  unfold run, try_catch, bind, await, ret, throw; simpl;
  destruct_answer; reflexivity.

Lemma listRecords_run (W : World) (b t : string) (mr : option Z)
    (view : option string) (sort : option (list SortSpec)) :
  let q := {| q_view := if Records.truthy view then present view else Absent;
              q_fields := Absent; q_maxRecords := Given (default 100%Z mr);
              q_filterByFormula := Absent; q_sort := present sort |} in
  run (Records.listRecords W b t mr view sort)
  = ([SelectAll b t q],
     match select_all W b t q with
     | Returned rs => Returned (map Records.simplify rs)
     | Threw e => Threw (Js.newError ("Failed to list records: " +:+ Js.toString e))
     end).
Proof.
  intros q. subst q. unfold Records.listRecords.
  run_single_call.
Qed.

Lemma getRecord_run (W : World) (b t r : string) :
  run (Records.getRecord W b t r)
  = ([Find b t r],
     match find W b t r with
     | Returned x => Returned (Records.simplify x)
     | Threw e => Threw (Js.newError ("Failed to get record: " +:+ Js.toString e))
     end).
Proof. unfold Records.getRecord. run_single_call. Qed.

Lemma createRecord_run (W : World) (b t : string) (fs : gmap string Js.Value) :
  run (Records.createRecord W b t fs)
  = ([Create b t fs],
     match create W b t fs with
     | Returned x => Returned (Records.simplify x)
     | Threw e => Threw (Js.newError ("Failed to create record: " +:+ Js.toString e))
     end).
Proof. unfold Records.createRecord. run_single_call. Qed.

Lemma updateRecord_run (W : World) (b t r : string) (fs : gmap string Js.Value) :
  run (Records.updateRecord W b t r fs)
  = ([Update b t r fs],
     match update W b t r fs with
     | Returned x => Returned (Records.simplify x)
     | Threw e => Threw (Js.newError ("Failed to update record: " +:+ Js.toString e))
     end).
Proof. unfold Records.updateRecord. run_single_call. Qed.

Lemma deleteRecord_run (W : World) (b t r : string) :
  run (Records.deleteRecord W b t r)
  = ([Destroy b t r],
     match destroy W b t r with
     | Returned x => Returned (rec_id x)
     | Threw e => Threw (Js.newError ("Failed to delete record: " +:+ Js.toString e))
     end).
Proof. unfold Records.deleteRecord. run_single_call. Qed.

Lemma listRecordsTool_run (W : World) (b t : string) (view : option string)
    (fields : option (list string)) (mr : option Z) (formula : option string)
    (sort : option (list SortSpec)) :
  let q := {| q_view := passed view; q_fields := passed fields;
              q_maxRecords := passed mr;
              q_filterByFormula := passed formula; q_sort := passed sort |} in
  run (Server.listRecordsTool W b t view fields mr formula sort)
  = ([SelectAll b t q],
     match select_all W b t q with
     | Returned rs => Returned (Server.Records_ (map Server.idFields rs))
     | Threw e => Returned (Server.Failure (Js.message e) (Some (Js.toString e)) None)
     end).
Proof.
  intros q. subst q. unfold Server.listRecordsTool.
  run_single_call.
Qed.

Lemma searchRecordsTool_run (W : World) (b t term f : string) (fs : list string)
    (mr : option Z) :
  let formula := Server.filterByFormula (f :: fs) term in
  let q := Spec.formula_query formula (default 100%Z mr) in
  run (Server.searchRecordsTool W b t term (Some (f :: fs)) mr)
  = ([SelectAll b t q],
     match select_all W b t q with
     | Returned rs => Returned (Server.Records_ (map Server.idFields rs))
     | Threw e => Returned (Server.Failure (Js.message e) (Some (Js.toString e))
                              (Some formula))
     end).
Proof.
  intros formula q. subst q formula.
  unfold Server.searchRecordsTool, Spec.formula_query.
  run_single_call.
Qed.

Lemma listRecordsRoute_run (W : World) (b t : string) (view : option string)
    (fields : option (list string)) (mr : option Z) (formula : option string)
    (sort : option (list SortSpec)) :
  Js.isEmpty b = false -> Js.isEmpty t = false ->
  let q := {| q_view := Given (default EmptyString view);
              q_fields := Given (default [] fields);
              q_maxRecords := Given (default 3%Z mr);
              q_filterByFormula := Given (default EmptyString formula);
              q_sort := Given (default [] sort) |} in
  run (Routes.listRecordsRoute W (Some b) (Some t) view fields mr formula sort)
  = ([SelectAll b t q],
     match select_all W b t q with
     | Returned rs =>
         Returned {| Routes.status := 200;
                     Routes.body := Routes.Json (map Server.idFields rs) |}
     | Threw e =>
         Returned {| Routes.status := 500;
                     Routes.body := Routes.ErrorJson (Js.message e) |}
     end).
Proof.
  intros Hb Ht q. subst q. unfold Routes.listRecordsRoute.
  rewrite Hb, Ht. simpl orb. cbv iota.
  run_single_call.
Qed.

(** ** The default record limit of the list operation *)


(** The list tool of the server hands [select] all five keys, each with the
    value [undefined] when the input leaves it out. *)
Example list_tool_passes_every_key (W : World) (b t : string) :
  trace (Server.listRecordsTool W b t None None None None None)
  = [SelectAll b t {| q_view := PassedUndefined; q_fields := PassedUndefined;
                      q_maxRecords := PassedUndefined;
                      q_filterByFormula := PassedUndefined;
                      q_sort := PassedUndefined |}].
Proof. unfold trace. rewrite listRecordsTool_run. reflexivity. Qed.




(** ** The formula builder *)

Lemma replace_dquotes_escapes (term : string) :
  Js.replace_dquotes term = Spec.escape_quotes term.
Proof.
  unfold Spec.escape_quotes. induction term as [|c term IH]; [reflexivity |].
  simpl. destruct (Ascii.eqb c Js.dquote); simpl; now rewrite IH.
Qed.

Lemma searchFormulaParts_cons (term f : string) (fs : list string) :
  Server.searchFormulaParts (f :: fs) term
  = Spec.find_in_field term f :: Server.searchFormulaParts fs term.
Proof.
  unfold Server.searchFormulaParts, Spec.find_in_field. simpl.
  now rewrite replace_dquotes_escapes.
Qed.

Lemma join_parts (term f : string) (fs : list string) :
  Js.join ", " (Server.searchFormulaParts (f :: fs) term) = Spec.any_field term f fs.
Proof.
  revert f; induction fs as [|g gs IH]; intros f.
  - rewrite searchFormulaParts_cons. reflexivity.
  - rewrite searchFormulaParts_cons. simpl Spec.any_field. rewrite <- IH.
    rewrite searchFormulaParts_cons. reflexivity.
Qed.

(** An escaped term followed by a closing quote reads back as the term,
    whatever follows, as long as that does not begin with a quote. *)
Lemma read_escaped (term : string) (c : ascii) (rest : string) :
  Ascii.eqb c Js.dquote = false ->
  Spec.read_literal (Spec.escape_quotes term +:+ String Js.dquote (String c rest))
  = Some (term, String c rest).
Proof.
  intros Hc. rewrite <- replace_dquotes_escapes.
  induction term as [|x term IH].
  - simpl Js.replace_dquotes. rewrite append_empty_l. simpl. now rewrite Hc.
  - simpl Js.replace_dquotes. destruct (Ascii.eqb x Js.dquote) eqn:Hx.
    + apply Ascii.eqb_eq in Hx. subst x. rewrite !append_cons.
      simpl. now rewrite IH.
    + rewrite append_cons. simpl. now rewrite Hx, IH.
Qed.

(** C5. For the field names [f :: fs] and any term, the formula the search
    tool builds and sends is the OR of one sub-expression per field, each the
    FIND of the lowercased, quoted term, with every double quote doubled, in
    the lowercased field reference; the escaped literal reads back as the
    term; and the term [He said "hi"] over the field [Name] gives the formula
    with each inner quote doubled. *)
Theorem formula_builder_spec (f : string) (fs : list string) (term : string) :
  Server.filterByFormula (f :: fs) term = Spec.formula term f fs /\
  (forall W b t mr,
     trace (Server.searchRecordsTool W b t term (Some (f :: fs)) mr)
     = [SelectAll b t (Spec.formula_query (Spec.formula term f fs) (default 100%Z mr))]) /\
  Spec.read_literal
    (Spec.escape_quotes term +:+ String Js.dquote ("), LOWER({" +:+ f +:+ "}))"))
  = Some (term, "), LOWER({" +:+ f +:+ "}))") /\
  Server.filterByFormula ["Name"] Demo.quoted_term = Demo.quoted_formula.
Proof.
  assert (Hf : Server.filterByFormula (f :: fs) term = Spec.formula term f fs).
  { unfold Server.filterByFormula, Spec.formula. now rewrite join_parts. }
  split; [exact Hf |]. split; [| split].
  - intros W b t mr. unfold trace. rewrite searchRecordsTool_run, Hf. reflexivity.
  - apply (read_escaped term ")"%char). reflexivity.
  - vm_compute. reflexivity.
Qed.

(** ** The formula search needs field names *)

(** C6. With an absent or empty list of field names the formula search
    returns the missing-field-names error at once: no remote call is issued
    and no formula is built.  With field names, its only remote call is the
    record query: the table schema is never fetched, so no field is ever
    inferred from its type. *)
Theorem formula_search_needs_field_names (W : World) (b t term : string)
    (mr : option Z) :
  run (Server.searchRecordsTool W b t term None mr)
  = ([], Returned (Server.Failure Server.missingFieldNames None None)) /\
  run (Server.searchRecordsTool W b t term (Some []) mr)
  = ([], Returned (Server.Failure Server.missingFieldNames None None)) /\
  (forall names c,
     In c (trace (Server.searchRecordsTool W b t term names mr)) ->
     Spec.is_select c = true).
Proof.
  split; [reflexivity |]. split; [reflexivity |].
  intros [[|f fs] |] c; unfold trace.
  - intros [].
  - rewrite searchRecordsTool_run. simpl. intros [<- | []]. reflexivity.
  - intros [].
Qed.

(** ** The schema lookup *)

Lemma isTable_spec (X : string) (t : Table) :
  Records.isTable X t = true <-> table_id t = X \/ table_name t = X.
Proof.
  unfold Records.isTable. now rewrite orb_true_iff, !String.eqb_eq.
Qed.

Lemma isTable_false (X : string) (t : Table) :
  Records.isTable X t = false <-> table_id t <> X /\ table_name t <> X.
Proof.
  unfold Records.isTable. now rewrite orb_false_iff, !String.eqb_neq.
Qed.

Lemma no_table_matches (X : string) (tables : list Table) :
  Js.find (Records.isTable X) tables = None <->
  forall t, In t tables -> table_id t <> X /\ table_name t <> X.
Proof.
  rewrite find_none. split; intros H t Ht; apply isTable_false; auto.
Qed.

(** C7. Once the metadata endpoint has answered, the lookup has issued the
    one request for the tables of the base, and: a non-success status makes
    the search fail with the remote-operation error that carries the status;
    on success the lookup fails with the table-not-found error exactly when
    no table has the given id or name, and otherwise returns the first table
    of the answer whose id or name equals it. *)
Theorem schema_lookup_spec (W : World) (b X : string) (resp : Response) :
  fetch_tables W b = Returned resp ->
  trace (Records.lookupTable W b X) = [FetchTables b] /\
  (resp_ok resp = false ->
   outcome (Records.lookupTable W b X)
   = Threw (Js.newError ("Schema API responded with status " +:+
                         pretty (resp_status resp))) /\
   forall term ids mr,
     run (Records.searchRecords W b X term ids mr)
     = ([FetchTables b],
        Threw (Js.newError
                 ("Failed to search records: Error: Schema API responded with status "
                  +:+ pretty (resp_status resp))))) /\
  (forall tables,
     resp_ok resp = true -> resp_json resp = Returned tables ->
     (outcome (Records.lookupTable W b X)
      = Threw (Js.newError ("Table " +:+ X +:+ " not found")) <->
      forall t, In t tables -> table_id t <> X /\ table_name t <> X) /\
     (forall table,
        outcome (Records.lookupTable W b X) = Returned table <->
        exists before after,
          tables = (before ++ table :: after)%list /\
          (table_id table = X \/ table_name table = X) /\
          forall t, In t before -> table_id t <> X /\ table_name t <> X) /\
     ((forall t, In t tables -> table_id t <> X /\ table_name t <> X) ->
      forall term ids mr,
        run (Records.searchRecords W b X term ids mr)
        = ([FetchTables b],
           Threw (Js.newError
                    ("Failed to search records: Error: Table " +:+ X +:+ " not found"))))).
Proof.
  intros Hfetch.
  pose proof (lookupTable_run W b X) as Hrun. rewrite Hfetch in Hrun.
  split; [unfold trace; now rewrite Hrun |]. split.
  - intros Hok. rewrite Hok in Hrun. split.
    + unfold outcome. now rewrite Hrun.
    + intros term ids mr. rewrite searchRecords_run. unfold outcome.
      rewrite Hrun. reflexivity.
  - intros tables Hok Hjson. rewrite Hok, Hjson in Hrun.
    assert (Hout : outcome (Records.lookupTable W b X)
                   = match Js.find (Records.isTable X) tables with
                     | Some table => Returned table
                     | None => Threw (Js.newError ("Table " +:+ X +:+ " not found"))
                     end).
    { unfold outcome. now rewrite Hrun. }
    split; [| split].
    + rewrite Hout, <- no_table_matches.
      destruct (Js.find (Records.isTable X) tables);
        split; intros H; (discriminate || reflexivity).
    + intros table. rewrite Hout. split.
      * destruct (Js.find (Records.isTable X) tables) as [t|] eqn:Hfind;
          [| discriminate].
        intros [= ->]. apply find_some in Hfind.
        destruct Hfind as [before [after [Heq [Hp Hb]]]].
        exists before, after. split; [assumption |].
        split; [now apply isTable_spec |].
        intros t Ht. apply isTable_false. auto.
      * intros [before [after [Heq [Hp Hb]]]].
        assert (Hfind : Js.find (Records.isTable X) tables = Some table).
        { apply find_some. exists before, after. split; [assumption |].
          split; [now apply isTable_spec |].
          intros t Ht. apply isTable_false. auto. }
        now rewrite Hfind.
    + intros Hnone term ids mr. apply no_table_matches in Hnone.
      rewrite searchRecords_run, Hout, Hnone. reflexivity.
Qed.

Lemma schema_lookup_spec_witness :
  trace (Records.lookupTable Demo.world "appShop" "Products") = [FetchTables "appShop"] /\
  forall table,
    outcome (Records.lookupTable Demo.world "appShop" "Products") = Returned table <->
    exists before after,
      [Demo.products; Demo.ledger] = (before ++ table :: after)%list /\
      (table_id table = "Products" \/ table_name table = "Products") /\
      forall t, In t before -> table_id t <> "Products" /\ table_name t <> "Products".
Proof.
  destruct (schema_lookup_spec Demo.world "appShop" "Products" _ eq_refl)
    as [Ht [_ Hok]].
  split; [exact Ht |].
  exact (proj1 (proj2 (Hok [Demo.products; Demo.ledger] eq_refl eq_refl))).
Defined.

Example lookup_demo :
  outcome (Records.lookupTable Demo.world "appShop" "tblLedger") = Returned Demo.ledger /\
  outcome (Records.lookupTable Demo.world "appShop" "Orders")
  = Threw (Js.newError "Table Orders not found") /\
  outcome (Records.lookupTable Demo.world "appLocked" "Products")
  = Threw (Js.newError "Schema API responded with status 403") /\
  outcome (Records.searchRecords Demo.world "appLocked" "Products" "x" None None)
  = Threw (Js.newError
             "Failed to search records: Error: Schema API responded with status 403").
Proof. vm_compute. auto. Qed.

(** ** Remote failures *)

Lemma occurs_in_append (p t s : string) :
  Spec.occurs_in t s -> Spec.occurs_in t (p +:+ s).
Proof.
  intros [before [after ->]]. exists (p +:+ before), after.
  now rewrite append_assoc.
Qed.

Lemma toString_has_message (e : Js.Thrown) :
  Spec.occurs_in (Js.message e) (Js.toString e).
Proof.
  destruct e as [n m | err m code]; simpl.
  - destruct n as [|x n]; simpl.
    + exists EmptyString, EmptyString. now rewrite append_empty_l, append_empty_r.
    + destruct m as [|y m]; simpl.
      * exists EmptyString, (String x n). reflexivity.
      * exists (String x n +:+ ": "), EmptyString.
        now rewrite append_empty_r, append_assoc.
  - exists EmptyString. eexists. rewrite append_empty_l. reflexivity.
Qed.

Lemma run_then_ret {A B} (m : Eff A) (f : A -> B) :
  run (let* x := m in ret (f x))
  = (trace m,
     match outcome m with
     | Returned a => Returned (f a)
     | Threw e => Threw e
     end).
Proof.
  unfold trace, outcome, run, bind, ret.
  destruct (m []) as [tr [a | e]]; reflexivity.
Qed.

Lemma airtableTools_run (W : World) (i : Index.Invocation) :
  run (Index.airtableTools W i)
  = match i with
    | Index.list_records b t mr view sort =>
        let r := run (Records.listRecords W b t mr view sort) in
        (fst r, match snd r with
                | Returned rs => Returned (Index.Many rs)
                | Threw e => Threw e
                end)
    | Index.get_record b t r =>
        let r := run (Records.getRecord W b t r) in
        (fst r, match snd r with
                | Returned x => Returned (Index.One x)
                | Threw e => Threw e
                end)
    | Index.create_record b t fs =>
        let r := run (Records.createRecord W b t fs) in
        (fst r, match snd r with
                | Returned x => Returned (Index.One x)
                | Threw e => Threw e
                end)
    | Index.update_record b t r fs =>
        let r := run (Records.updateRecord W b t r fs) in
        (fst r, match snd r with
                | Returned x => Returned (Index.One x)
                | Threw e => Threw e
                end)
    | Index.delete_record b t r =>
        let r := run (Records.deleteRecord W b t r) in
        (fst r, match snd r with
                | Returned x => Returned (Index.Deleted x)
                | Threw e => Threw e
                end)
    | Index.search_records b t term ids mr =>
        let r := run (Records.searchRecords W b t term ids mr) in
        (fst r, match snd r with
                | Returned rs => Returned (Index.Many rs)
                | Threw e => Threw e
                end)
    end.
Proof.
  destruct i; unfold Index.airtableTools, Index.adaptHandler;
    rewrite run_then_ret; reflexivity.
Qed.

Ltac single_call_failure Hin Hfail :=
  simpl in Hin; destruct Hin as [<- | []]; simpl in Hfail;
  match type of Hfail with
  | Spec.thrown_by ?o = Some _ => destruct o; simpl in Hfail; [discriminate |]
  end;
  injection Hfail as ->; simpl;
  split; [reflexivity |];
  split; [apply occurs_in_append, toString_has_message |];
  exists []; split; [reflexivity | intros []].

Ltac which_call Hin :=
  simpl in Hin;
  repeat match type of Hin with
         | _ \/ _ => destruct Hin as [<- | Hin]
         | False => destruct Hin
         end.

Lemma search_call_failure (W : World) (b t term : string)
    (ids : option (list string)) (mr : option Z) (c : Call) (e : Js.Thrown) :
  let r := run (Records.searchRecords W b t term ids mr) in
  In c (fst r) ->
  Spec.failure W c = Some e ->
  match snd r with
  | Returned rs => Returned (Index.Many rs)
  | Threw e' => Threw e'
  end = Threw (Js.newError ("Failed to search records: " +:+ Js.toString e)) /\
  Spec.occurs_in (Js.message e) ("Failed to search records: " +:+ Js.toString e) /\
  exists before, fst r = (before ++ [c])%list /\ ~ In c before.
Proof.
  intros r. subst r. rewrite searchRecords_run. unfold outcome.
  rewrite lookupTable_run. simpl snd.
  destruct (fetch_tables W b) as [resp | e0] eqn:Hfetch;
    [destruct (resp_ok resp);
     [destruct (resp_json resp) as [tables | e1];
      [destruct (Js.find (Records.isTable t) tables) as [table |] |] |] |];
    intros Hin Hfail; which_call Hin; simpl in Hfail;
    try (rewrite Hfetch in Hfail; discriminate).
  - destruct (select_all W b t _) as [records | e1]; [discriminate |].
    injection Hfail as ->. simpl.
    split; [reflexivity |].
    split; [apply occurs_in_append, toString_has_message |].
    exists [FetchTables b]. split; [reflexivity |].
    intros [H | []]. discriminate.
  - rewrite Hfetch in Hfail. injection Hfail as ->. simpl.
    split; [reflexivity |].
    split; [apply occurs_in_append, toString_has_message |].
    exists []. split; [reflexivity | intros []].
Qed.

(** C8. Whenever a remote call issued by a record operation (list, get,
    create, update, delete, search) fails, the operation throws one error
    whose message is the operation's own prefix followed by the failure
    rendered as text, and so contains the original message; the failed call
    is the last one issued and was issued once: nothing is retried. *)
Theorem remote_failure_is_resignaled (W : World) (i : Index.Invocation)
    (c : Call) (e : Js.Thrown) :
  In c (trace (Index.airtableTools W i)) ->
  Spec.failure W c = Some e ->
  outcome (Index.airtableTools W i)
  = Threw (Js.newError (Spec.failure_prefix i +:+ Js.toString e)) /\
  Spec.occurs_in (Js.message e) (Spec.failure_prefix i +:+ Js.toString e) /\
  exists before,
    trace (Index.airtableTools W i) = (before ++ [c])%list /\ ~ In c before.
Proof.
  unfold trace, outcome. rewrite airtableTools_run. intros Hin Hfail.
  destruct i as [b t mr view sort | b t r | b t fs | b t r fs | b t r
                | b t term ids mr].
  - rewrite listRecords_run in *. single_call_failure Hin Hfail.
  - rewrite getRecord_run in *. single_call_failure Hin Hfail.
  - rewrite createRecord_run in *. single_call_failure Hin Hfail.
  - rewrite updateRecord_run in *. single_call_failure Hin Hfail.
  - rewrite deleteRecord_run in *. single_call_failure Hin Hfail.
  - now apply search_call_failure.
Qed.

Lemma remote_failure_is_resignaled_witness :
  outcome (Index.airtableTools Demo.world
             (Index.delete_record "appShop" "Products" "recNope"))
  = Threw (Js.newError
             ("Failed to delete record: " +:+ Js.toString Demo.not_found)).
Proof.
  assert (Hin : In (Destroy "appShop" "Products" "recNope")
                   (trace (Index.airtableTools Demo.world
                             (Index.delete_record "appShop" "Products" "recNope")))).
  { left. reflexivity. }
  exact (proj1 (remote_failure_is_resignaled Demo.world
                  (Index.delete_record "appShop" "Products" "recNope")
                  (Destroy "appShop" "Products" "recNope") Demo.not_found
                  Hin eq_refl)).
Defined.

(** ** The result of the client-side search *)





(** ** The empty search term *)





(** * Further properties of the handlers *)

(** ** Errors and calls of the record tools *)

(** X1. Whatever makes a record tool fail, what it throws is a native
    [Error] whose message is the operation's own prefix followed by the
    rendering of the cause, where the cause is what the [catch] clause
    received: the failure with which the remote service answered the last
    call issued or, for a search, what the table lookup threw (the failure of
    the metadata request, of reading its body, the status error or the
    table-not-found error) or the no-searchable-fields error of a table none
    of whose fields resolved. *)
Theorem record_tool_errors_are_prefixed (W : World) (i : Index.Invocation)
    (e : Js.Thrown) :
  outcome (Index.airtableTools W i) = Threw e ->
  exists cause,
    e = Js.newError (Spec.failure_prefix i +:+ Js.toString cause) /\
    ((exists before c,
        trace (Index.airtableTools W i) = (before ++ [c])%list /\
        Spec.failure W c = Some cause) \/
     (exists b t term ids mr,
        i = Index.search_records b t term ids mr /\
        (outcome (Records.lookupTable W b t) = Threw cause \/
         exists table,
           outcome (Records.lookupTable W b t) = Returned table /\
           Records.searchFieldNames table ids = [] /\
           cause = Js.newError "No searchable fields found"))).
Proof.
  unfold outcome at 1, trace. rewrite airtableTools_run.
  destruct i as [b t mr view sort | b t r | b t fs | b t r fs | b t r
                | b t term ids mr]; simpl.
  - rewrite listRecords_run. simpl.
    destruct (select_all W b t _) as [rs | e0] eqn:Ha; intros [= <-].
    exists e0. split; [reflexivity |]. left. exists [].
    eexists. split; [reflexivity |]. simpl. now rewrite Ha.
  - rewrite getRecord_run. simpl.
    destruct (find W b t r) as [x | e0] eqn:Ha; intros [= <-].
    exists e0. split; [reflexivity |]. left. exists [].
    eexists. split; [reflexivity |]. simpl. now rewrite Ha.
  - rewrite createRecord_run. simpl.
    destruct (create W b t fs) as [x | e0] eqn:Ha; intros [= <-].
    exists e0. split; [reflexivity |]. left. exists [].
    eexists. split; [reflexivity |]. simpl. now rewrite Ha.
  - rewrite updateRecord_run. simpl.
    destruct (update W b t r fs) as [x | e0] eqn:Ha; intros [= <-].
    exists e0. split; [reflexivity |]. left. exists [].
    eexists. split; [reflexivity |]. simpl. now rewrite Ha.
  - rewrite deleteRecord_run. simpl.
    destruct (destroy W b t r) as [x | e0] eqn:Ha; intros [= <-].
    exists e0. split; [reflexivity |]. left. exists [].
    eexists. split; [reflexivity |]. simpl. now rewrite Ha.
  - rewrite searchRecords_run.
    destruct (outcome (Records.lookupTable W b t)) as [table | e0] eqn:Hl;
      cbn [fst snd].
    + destruct (select_all W b t _) as [page | e1] eqn:Ha.
      * destruct (Records.searchFieldNames table ids) as [|n names] eqn:Hn;
          intros [= <-].
        exists (Js.newError "No searchable fields found").
        split; [reflexivity |]. right. exists b, t, term, ids, mr.
        split; [reflexivity |]. right. exists table. auto.
      * intros [= <-]. exists e1. split; [reflexivity |]. left.
        exists [FetchTables b]. eexists. split; [reflexivity |].
        simpl. now rewrite Ha.
    + intros [= <-]. exists e0. split; [reflexivity |]. right.
      exists b, t, term, ids, mr. split; [reflexivity |]. now left.
Qed.

Lemma record_tool_errors_are_prefixed_witness :
  exists cause,
    Js.newError "Failed to search records: Error: Table Orders not found"
    = Js.newError (Spec.failure_prefix
                     (Index.search_records "appShop" "Orders" "x" None None)
                   +:+ Js.toString cause) /\
    ((exists before c,
        trace (Index.airtableTools Demo.world
                 (Index.search_records "appShop" "Orders" "x" None None))
        = (before ++ [c])%list /\
        Spec.failure Demo.world c = Some cause) \/
     (exists b t term ids mr,
        Index.search_records "appShop" "Orders" "x" None None
        = Index.search_records b t term ids mr /\
        (outcome (Records.lookupTable Demo.world b t) = Threw cause \/
         exists table,
           outcome (Records.lookupTable Demo.world b t) = Returned table /\
           Records.searchFieldNames table ids = [] /\
           cause = Js.newError "No searchable fields found"))).
Proof.
  apply (record_tool_errors_are_prefixed Demo.world
           (Index.search_records "appShop" "Orders" "x" None None)).
  vm_compute. reflexivity.
Defined.

Lemma searchRecords_trace (W : World) (b t term : string)
    (ids : option (list string)) (mr : option Z) :
  trace (Records.searchRecords W b t term ids mr) = [FetchTables b] \/
  trace (Records.searchRecords W b t term ids mr)
  = [FetchTables b; SelectAll b t (Spec.limit_only (default 100%Z mr))].
Proof.
  unfold trace. rewrite searchRecords_run.
  destruct (outcome (Records.lookupTable W b t)); simpl; auto.
Qed.

(** X2. A record tool issues at most two remote calls, and never writes
    anything but the one create, update or destroy it was invoked for: list,
    get and search issue no write at all. *)
Theorem record_tools_write_only_on_request (W : World) (i : Index.Invocation) :
  length (trace (Index.airtableTools W i)) <= 2 /\
  forall c, In c (trace (Index.airtableTools W i)) ->
            Writes.is_write c = true -> Writes.requested i = Some c.
Proof.
  unfold trace. rewrite airtableTools_run.
  destruct i as [b t mr view sort | b t r | b t fs | b t r fs | b t r
                | b t term ids mr]; simpl.
  - rewrite listRecords_run. simpl. split; [lia |].
    intros c [<- | []]. discriminate.
  - rewrite getRecord_run. simpl. split; [lia |].
    intros c [<- | []]. discriminate.
  - rewrite createRecord_run. simpl. split; [lia |].
    intros c [<- | []] _. reflexivity.
  - rewrite updateRecord_run. simpl. split; [lia |].
    intros c [<- | []] _. reflexivity.
  - rewrite deleteRecord_run. simpl. split; [lia |].
    intros c [<- | []] _. reflexivity.
  - destruct (searchRecords_trace W b t term ids mr) as [H | H];
      unfold trace in H; rewrite H; simpl; (split; [lia |]).
    + intros c [<- | []]. discriminate.
    + intros c [<- | [<- | []]]; discriminate.
Qed.

(** ** Laws of the search *)

Lemma occurs_in_trans (a b c : string) :
  Spec.occurs_in a b -> Spec.occurs_in b c -> Spec.occurs_in a c.
Proof.
  intros [p1 [q1 ->]] [p2 [q2 ->]].
  exists (p2 +:+ p1), (q1 +:+ q2). now rewrite !append_assoc.
Qed.

Lemma filter_ext {A} (p q : A -> bool) (xs : list A) :
  (forall x, In x xs -> p x = q x) -> Js.filter p xs = Js.filter q xs.
Proof.
  induction xs as [|x xs IH]; intros H; simpl; [reflexivity |].
  rewrite (H x (or_introl eq_refl)), IH; [reflexivity |].
  intros y Hy. apply H. now right.
Qed.

Lemma filter_narrows {A} (p q : A -> bool) (xs : list A) :
  (forall x, p x = true -> q x = true) ->
  sublist (Js.filter p xs) (Js.filter q xs).
Proof.
  intros H. induction xs as [|x xs IH]; simpl; [constructor |].
  destruct (p x) eqn:Hp.
  - rewrite (H x Hp). now constructor.
  - destruct (q x); [now constructor | assumption].
Qed.

Lemma valueMatches_same_case (t1 t2 : string) (v : Js.Value) :
  Js.toLowerCase t1 = Js.toLowerCase t2 ->
  Records.valueMatches t1 v = Records.valueMatches t2 v.
Proof. intros H. unfold Records.valueMatches. now rewrite H. Qed.

Lemma recordMatches_same_case (names : list string) (t1 t2 : string) (r : Record_) :
  Js.toLowerCase t1 = Js.toLowerCase t2 ->
  Records.recordMatches names t1 r = Records.recordMatches names t2 r.
Proof.
  intros H. unfold Records.recordMatches.
  induction names as [|n names IH]; simpl; [reflexivity |].
  now rewrite (valueMatches_same_case t1 t2), IH.
Qed.

(** X3. The client-side search does not see the case of the term: two terms
    with the same lowercase form give the same run, calls and result
    alike. *)
Theorem search_ignores_term_case (W : World) (b t term1 term2 : string)
    (ids : option (list string)) (mr : option Z) :
  Js.toLowerCase term1 = Js.toLowerCase term2 ->
  run (Records.searchRecords W b t term1 ids mr)
  = run (Records.searchRecords W b t term2 ids mr).
Proof.
  intros H. rewrite !searchRecords_run.
  destruct (outcome (Records.lookupTable W b t)) as [table | e]; [| reflexivity].
  destruct (select_all W b t _) as [page | e]; [| reflexivity].
  destruct (Records.searchFieldNames table ids) as [|n names]; [reflexivity |].
  do 3 f_equal. apply filter_ext. intros r _.
  now apply recordMatches_same_case.
Qed.

Lemma search_ignores_term_case_witness :
  run (Records.searchRecords Demo.world "appShop" "Products" "RED" (Some ["fldTags"]) None)
  = run (Records.searchRecords Demo.world "appShop" "Products" "Red" (Some ["fldTags"]) None).
Proof.
  apply (search_ignores_term_case Demo.world "appShop" "Products" "RED" "Red").
  reflexivity.
Defined.

Lemma valueMatches_narrows (t1 t2 : string) (v : Js.Value) :
  Spec.contains_ci t2 t1 ->
  Records.valueMatches t2 v = true -> Records.valueMatches t1 v = true.
Proof.
  intros Hsub. rewrite !valueMatches_spec. unfold Spec.contains_ci in *.
  intros [[s [Hs Hc]] | [items [s [Hs [Hin Hc]]]]].
  - left. exists s. split; [assumption |]. eapply occurs_in_trans; eassumption.
  - right. exists items, s. repeat split; try assumption.
    eapply occurs_in_trans; eassumption.
Qed.

Lemma recordMatches_narrows (names : list string) (t1 t2 : string) (r : Record_) :
  Spec.contains_ci t2 t1 ->
  Records.recordMatches names t2 r = true -> Records.recordMatches names t1 r = true.
Proof.
  intros Hsub. unfold Records.recordMatches. rewrite !some_spec.
  intros [f [Hf H]]. exists f. split; [assumption |].
  now apply (valueMatches_narrows t1 t2).
Qed.

(** X4. A term contained in another finds at least as much: when [term2]
    contains [term1] case-insensitively (the lowercase form of [term1] occurs
    in the lowercase form of [term2]) and the search for [term2] returns, the
    search for [term1] returns too, and the records found for [term2] are, in
    order, among those found for [term1]. *)
Theorem search_narrows_with_longer_term (W : World) (b t term1 term2 : string)
    (ids : option (list string)) (mr : option Z) (out2 : list Records.Simplified) :
  Spec.contains_ci term2 term1 ->
  outcome (Records.searchRecords W b t term2 ids mr) = Returned out2 ->
  exists out1,
    outcome (Records.searchRecords W b t term1 ids mr) = Returned out1 /\
    sublist out2 out1.
Proof.
  intros Hsub. unfold outcome. rewrite !searchRecords_run.
  destruct (outcome (Records.lookupTable W b t)) as [table | e]; [| discriminate].
  simpl. destruct (select_all W b t _) as [page | e]; [| discriminate].
  destruct (Records.searchFieldNames table ids) as [|n names]; [discriminate |].
  intros [= <-]. eexists. split; [reflexivity |].
  apply map_sublist, filter_narrows. intros r.
  now apply recordMatches_narrows.
Qed.

Lemma search_narrows_with_longer_term_witness :
  exists out1,
    outcome (Records.searchRecords Demo.world "appShop" "Products" "GET" None None)
    = Returned out1 /\
    sublist [Records.simplify Demo.gadget] out1.
Proof.
  apply (search_narrows_with_longer_term Demo.world "appShop" "Products"
           "GET" "Gadget" None None [Records.simplify Demo.gadget]).
  - exists "gad", EmptyString. reflexivity.
  - vm_compute. reflexivity.
Defined.

(** ** Laws of the field resolver *)

Lemma names_sublist (p : Field -> bool) (fs : list Field) :
  sublist (map field_name (Js.filter p fs)) (map field_name fs).
Proof. apply map_sublist, filter_sublist. Qed.

(** X5. The explicit field ids count as a set, and the schema gives the
    order: two non-empty id lists with the same members resolve to the same
    names, which come in the order of the table's fields. *)
Theorem resolver_reads_ids_as_a_set (table : Table) (ids1 ids2 : list string) :
  ids1 <> [] ->
  (forall x, In x ids1 <-> In x ids2) ->
  Records.searchFieldNames table (Some ids1) = Records.searchFieldNames table (Some ids2) /\
  sublist (Records.searchFieldNames table (Some ids1))
          (map field_name (table_fields table)).
Proof.
  intros Hne Hsame.
  destruct ids1 as [|i1 ids1]; [congruence |].
  destruct ids2 as [|i2 ids2]; [destruct (proj1 (Hsame i1) (or_introl eq_refl)) |].
  unfold Records.searchFieldNames. split; [| apply names_sublist].
  f_equal. apply filter_ext. intros f _.
  destruct (Js.arr_includes (i1 :: ids1) (field_id f)) eqn:H1.
  - symmetry. apply arr_includes_spec, Hsame, arr_includes_spec, H1.
  - destruct (Js.arr_includes (i2 :: ids2) (field_id f)) eqn:H2; [| reflexivity].
    apply arr_includes_spec, Hsame, arr_includes_spec in H2. congruence.
Qed.

Lemma resolver_reads_ids_as_a_set_witness :
  Records.searchFieldNames Demo.products (Some ["fldTags"; "fldName"])
  = Records.searchFieldNames Demo.products (Some ["fldName"; "fldTags"; "fldName"]).
Proof.
  apply (resolver_reads_ids_as_a_set Demo.products
           ["fldTags"; "fldName"] ["fldName"; "fldTags"; "fldName"]).
  - discriminate.
  - intros x. simpl. tauto.
Defined.

Lemma recordMatches_more_names (names1 names2 : list string) (term : string)
    (r : Record_) :
  (forall n, In n names1 -> In n names2) ->
  Records.recordMatches names1 term r = true ->
  Records.recordMatches names2 term r = true.
Proof.
  intros Hsub. unfold Records.recordMatches. rewrite !some_spec.
  intros [f [Hf H]]. eauto.
Qed.

(** X6. Naming more field ids can only widen the result: when every id of
    the non-empty list [ids1] is also in [ids2] and the search over [ids1]
    returns, the search over [ids2] returns too, and the records found over
    [ids1] are, in order, among those found over [ids2]. *)
Theorem search_widens_with_more_fields (W : World) (b t term : string)
    (ids1 ids2 : list string) (mr : option Z) (out1 : list Records.Simplified) :
  ids1 <> [] ->
  (forall x, In x ids1 -> In x ids2) ->
  outcome (Records.searchRecords W b t term (Some ids1) mr) = Returned out1 ->
  exists out2,
    outcome (Records.searchRecords W b t term (Some ids2) mr) = Returned out2 /\
    sublist out1 out2.
Proof.
  intros Hne Hsub. unfold outcome. rewrite !searchRecords_run.
  destruct (outcome (Records.lookupTable W b t)) as [table | e]; [| discriminate].
  cbn [snd]. destruct (select_all W b t _) as [page | e]; [| discriminate].
  assert (Hnames : forall n, In n (Records.searchFieldNames table (Some ids1)) ->
                             In n (Records.searchFieldNames table (Some ids2))).
  { destruct ids1 as [|i1 ids1]; [congruence |].
    destruct ids2 as [|i2 ids2]; [destruct (Hsub i1 (or_introl eq_refl)) |].
    intros n Hn. apply names_of_filter in Hn. destruct Hn as [f [Hf [Hp Hn]]].
    apply names_of_filter. exists f. split; [assumption |].
    split; [| assumption].
    apply arr_includes_spec, Hsub, arr_includes_spec, Hp. }
  destruct (Records.searchFieldNames table (Some ids1)) as [|n1 names1] eqn:H1;
    [discriminate |].
  destruct (Records.searchFieldNames table (Some ids2)) as [|n2 names2] eqn:H2.
  - destruct (Hnames n1 (or_introl eq_refl)).
  - intros [= <-]. eexists. split; [reflexivity |].
    apply map_sublist, filter_narrows. intros r.
    now apply recordMatches_more_names.
Qed.

Lemma search_widens_with_more_fields_witness :
  exists out2,
    outcome (Records.searchRecords Demo.world "appShop" "Products" "red"
               (Some ["fldTags"; "fldName"]) None) = Returned out2 /\
    sublist [Records.simplify Demo.widget] out2.
Proof.
  apply (search_widens_with_more_fields Demo.world "appShop" "Products" "red"
           ["fldTags"] ["fldTags"; "fldName"] None [Records.simplify Demo.widget]).
  - discriminate.
  - intros x [<- | []]. left. reflexivity.
  - vm_compute. reflexivity.
Defined.

(** ** The list front ends *)

(** X7. The list handler of the tool module treats an empty view name as no
    view at all, and forwards any other view name, and the sort
    specification, unchanged. *)
Theorem list_ignores_empty_view (W : World) (b t : string) (mr : option Z)
    (sort : option (list SortSpec)) :
  run (Records.listRecords W b t mr (Some EmptyString) sort)
  = run (Records.listRecords W b t mr None sort) /\
  forall c v,
    trace (Records.listRecords W b t mr (Some (String c v)) sort)
    = [SelectAll b t {| q_view := Given (String c v); q_fields := Absent;
                        q_maxRecords := Given (default 100%Z mr);
                        q_filterByFormula := Absent; q_sort := present sort |}].
Proof.
  split.
  - rewrite !listRecords_run. reflexivity.
  - intros c v. unfold trace. rewrite listRecords_run. reflexivity.
Qed.

Lemma listRecordsRoute_rejects (W : World)
    (b t view : option string) (fields : option (list string)) (mr : option Z)
    (formula : option string) (sort : option (list SortSpec)) :
  Records.truthy b && Records.truthy t = false ->
  run (Routes.listRecordsRoute W b t view fields mr formula sort)
  = ([], Returned {| Routes.status := 400;
                     Routes.body :=
                       Routes.ErrorJson "baseId and tableIdOrName are required" |}).
Proof.
  unfold Routes.listRecordsRoute.
  destruct b as [b|], t as [t|]; simpl; try reflexivity.
  destruct (Js.isEmpty b), (Js.isEmpty t); simpl; try reflexivity.
  discriminate.
Qed.

(** X8. The Express list route answers a request without a base id or
    without a table, or with an empty one, with status 400 and its fixed
    message, and issues no remote call. *)
Theorem list_route_requires_base_and_table (W : World)
    (b t view : option string) (fields : option (list string)) (mr : option Z)
    (formula : option string) (sort : option (list SortSpec)) :
  Records.truthy b && Records.truthy t = false ->
  run (Routes.listRecordsRoute W b t view fields mr formula sort)
  = ([], Returned {| Routes.status := 400;
                     Routes.body :=
                       Routes.ErrorJson "baseId and tableIdOrName are required" |}).
Proof.
  intros Hv. unfold Routes.listRecordsRoute.
  destruct b as [b|], t as [t|]; simpl in *; try reflexivity.
  destruct (Js.isEmpty b), (Js.isEmpty t); simpl in *; try reflexivity.
  discriminate Hv.
Qed.

Lemma list_route_requires_base_and_table_witness :
  run (Routes.listRecordsRoute Demo.world (Some "appShop") (Some EmptyString)
         None None None None None)
  = ([], Returned {| Routes.status := 400;
                     Routes.body :=
                       Routes.ErrorJson "baseId and tableIdOrName are required" |}).
Proof.
  apply (list_route_requires_base_and_table Demo.world (Some "appShop")
           (Some EmptyString)).
  reflexivity.
Defined.

(** X9. The Express list route never throws: every request gets a reply with
    status 200, 400 or 500; the status is 400 exactly when no remote call was
    issued, and otherwise one record query was issued, whose records (status
    200) or whose failure message (status 500) make the body. *)
Theorem list_route_always_replies (W : World)
    (b t view : option string) (fields : option (list string)) (mr : option Z)
    (formula : option string) (sort : option (list SortSpec)) :
  exists reply,
    outcome (Routes.listRecordsRoute W b t view fields mr formula sort)
    = Returned reply /\
    (Routes.status reply = 400%N <->
     trace (Routes.listRecordsRoute W b t view fields mr formula sort) = []) /\
    (Routes.status reply = 400%N \/
     exists b' t' q,
       trace (Routes.listRecordsRoute W b t view fields mr formula sort)
       = [SelectAll b' t' q] /\
       match select_all W b' t' q with
       | Returned rs =>
           reply = {| Routes.status := 200;
                      Routes.body := Routes.Json (map Server.idFields rs) |}
       | Threw e =>
           reply = {| Routes.status := 500;
                      Routes.body := Routes.ErrorJson (Js.message e) |}
       end).
Proof.
  destruct (Records.truthy b && Records.truthy t) eqn:Hv.
  - destruct b as [b|], t as [t|]; simpl in Hv; rewrite ?andb_false_r in Hv;
      try discriminate.
    apply andb_true_iff in Hv. destruct Hv as [Hb Ht]. simpl in Hb, Ht.
    apply negb_true_iff in Hb, Ht.
    unfold outcome, trace.
    rewrite (listRecordsRoute_run W b t view fields mr formula sort Hb Ht).
    simpl. destruct (select_all W b t _) as [rs | e] eqn:Hs.
    + eexists. split; [reflexivity |]. split; [simpl; split; discriminate |].
      right. do 3 eexists. split; [reflexivity |]. now rewrite Hs.
    + eexists. split; [reflexivity |]. split; [simpl; split; discriminate |].
      right. do 3 eexists. split; [reflexivity |]. now rewrite Hs.
  - unfold outcome, trace.
    rewrite (listRecordsRoute_rejects W b t view fields mr formula sort Hv).
    eexists. split; [reflexivity |]. simpl. split; [tauto | now left].
Qed.

(** X10. A record limit that is supplied is forwarded unchanged by every
    front end: the list handler of the tool module, the list tool of the
    server, the Express list route and the formula search each ask for
    exactly that many records. *)
Theorem supplied_limit_is_forwarded (W : World) (b t term : string) (n : Z)
    (view : option string) (fields : option (list string))
    (formula : option string) (sort : option (list SortSpec))
    (cb ct : ascii) (f : string) (fs : list string) :
  Writes.limits (trace (Records.listRecords W b t (Some n) view sort)) = [Some n] /\
  Writes.limits (trace (Server.listRecordsTool W b t view fields (Some n) formula sort))
  = [Some n] /\
  Writes.limits (trace (Routes.listRecordsRoute W (Some (String cb b)) (Some (String ct t))
                          view fields (Some n) formula sort)) = [Some n] /\
  Writes.limits (trace (Server.searchRecordsTool W b t term (Some (f :: fs)) (Some n)))
  = [Some n].
Proof.
  unfold trace.
  rewrite listRecords_run, listRecordsTool_run, searchRecordsTool_run.
  rewrite listRecordsRoute_run by reflexivity.
  repeat split.
Qed.

(** ** The other tools of the server *)

Ltac destruct_wide_answer :=
  match goal with
  | |- context [find ?W ?b ?t ?r] => destruct (find W b t r)
  | |- context [ServerCrud.create_many ?W ?b ?t ?rows] =>
      destruct (ServerCrud.create_many W b t rows) as [[|? ?] | ?]
  | |- context [ServerCrud.update_many ?W ?b ?t ?rows] =>
      destruct (ServerCrud.update_many W b t rows) as [[|? ?] | ?]
  | |- context [ServerCrud.destroy_many ?W ?b ?t ?ids] =>
      destruct (ServerCrud.destroy_many W b t ids) as [[|? ?] | ?]
  | |- context [Completions.create_completion ?W ?r] =>
      destruct (Completions.create_completion W r)
  end.

Ltac run_wide_call :=
  unfold Wide.run, Wide.try_catch, Wide.bind, Wide.await, Wide.ret, Wide.throw;
  simpl; destruct_wide_answer; reflexivity.

Lemma getRecordTool_run (W : ServerCrud.World) (b t r : string) :
  Wide.run (ServerCrud.getRecordTool W b t r)
  = ([ServerCrud.Basic (Find b t r)],
     Returned match find (ServerCrud.basic W) b t r with
              | Returned x => ServerCrud.One (Server.idFields x)
              | Threw e => ServerCrud.Failed (Js.message e) (Some (Js.toString e))
              end).
Proof. unfold ServerCrud.getRecordTool. run_wide_call. Qed.

Lemma createRecordTool_run (W : ServerCrud.World) (b t : string)
    (fs : gmap string Js.Value) :
  Wide.run (ServerCrud.createRecordTool W b t fs)
  = ([ServerCrud.CreateMany b t [fs]],
     Returned match ServerCrud.create_many W b t [fs] with
              | Returned [] => ServerCrud.First None
              | Returned (x :: _) => ServerCrud.First (Some (Server.idFields x))
              | Threw e => ServerCrud.Failed (Js.message e) (Some (Js.toString e))
              end).
Proof. unfold ServerCrud.createRecordTool. run_wide_call. Qed.

Lemma updateRecordTool_run (W : ServerCrud.World) (b t r : string)
    (fs : gmap string Js.Value) :
  Wide.run (ServerCrud.updateRecordTool W b t r fs)
  = ([ServerCrud.UpdateMany b t [(r, fs)]],
     Returned match ServerCrud.update_many W b t [(r, fs)] with
              | Returned [] => ServerCrud.First None
              | Returned (x :: _) => ServerCrud.First (Some (Server.idFields x))
              | Threw e => ServerCrud.Failed (Js.message e) (Some (Js.toString e))
              end).
Proof. unfold ServerCrud.updateRecordTool. run_wide_call. Qed.

Lemma deleteRecordTool_run (W : ServerCrud.World) (b t r : string) :
  Wide.run (ServerCrud.deleteRecordTool W b t r)
  = ([ServerCrud.DestroyMany b t [r]],
     Returned match ServerCrud.destroy_many W b t [r] with
              | Returned [] => ServerCrud.Removed None
              | Returned (x :: _) => ServerCrud.Removed (Some (rec_id x))
              | Threw e => ServerCrud.Failed (Js.message e) (Some (Js.toString e))
              end).
Proof. unfold ServerCrud.deleteRecordTool. run_wide_call. Qed.

(** X11. No tool of the server ever throws: the list and search tools, the
    table-listing tool and the get, create, update and delete tools all
    return a value, whatever the remote service answers. *)
Theorem server_tools_never_throw (W : ServerCrud.World) (b t r term : string)
    (fs : gmap string Js.Value) (view formula : option string)
    (fields names : option (list string)) (mr : option Z)
    (sort : option (list SortSpec)) :
  (exists x, outcome (Server.listRecordsTool (ServerCrud.basic W) b t view fields mr
                        formula sort) = Returned x) /\
  (exists x, outcome (Server.searchRecordsTool (ServerCrud.basic W) b t term names mr)
             = Returned x) /\
  (exists x, Wide.outcome (ServerCrud.listTablesTool W b) = Returned x) /\
  (exists x, Wide.outcome (ServerCrud.getRecordTool W b t r) = Returned x) /\
  (exists x, Wide.outcome (ServerCrud.createRecordTool W b t fs) = Returned x) /\
  (exists x, Wide.outcome (ServerCrud.updateRecordTool W b t r fs) = Returned x) /\
  (exists x, Wide.outcome (ServerCrud.deleteRecordTool W b t r) = Returned x).
Proof.
  unfold outcome, Wide.outcome.
  rewrite listRecordsTool_run, getRecordTool_run, createRecordTool_run,
    updateRecordTool_run, deleteRecordTool_run.
  split; [simpl; destruct (select_all _ b t _); eauto |].
  split.
  { destruct names as [[|f names] |]; [simpl; eauto | | simpl; eauto].
    rewrite searchRecordsTool_run. simpl. destruct (select_all _ b t _); eauto. }
  repeat split; simpl; eauto.
Qed.

(** X12. The create, update and delete tools of the server send one batch
    call with a single row, and report element 0 of the answer: the first
    record when the answer has one, an undefined record (or id) when the
    answer is empty, and the failure's message and rendering when the call
    fails. *)
Theorem batch_tools_report_first_record (W : ServerCrud.World) (b t r : string)
    (fs : gmap string Js.Value) :
  Wide.run (ServerCrud.createRecordTool W b t fs)
  = ([ServerCrud.CreateMany b t [fs]],
     Returned match ServerCrud.create_many W b t [fs] with
              | Returned [] => ServerCrud.First None
              | Returned (x :: _) => ServerCrud.First (Some (Server.idFields x))
              | Threw e => ServerCrud.Failed (Js.message e) (Some (Js.toString e))
              end) /\
  Wide.run (ServerCrud.updateRecordTool W b t r fs)
  = ([ServerCrud.UpdateMany b t [(r, fs)]],
     Returned match ServerCrud.update_many W b t [(r, fs)] with
              | Returned [] => ServerCrud.First None
              | Returned (x :: _) => ServerCrud.First (Some (Server.idFields x))
              | Threw e => ServerCrud.Failed (Js.message e) (Some (Js.toString e))
              end) /\
  Wide.run (ServerCrud.deleteRecordTool W b t r)
  = ([ServerCrud.DestroyMany b t [r]],
     Returned match ServerCrud.destroy_many W b t [r] with
              | Returned [] => ServerCrud.Removed None
              | Returned (x :: _) => ServerCrud.Removed (Some (rec_id x))
              | Threw e => ServerCrud.Failed (Js.message e) (Some (Js.toString e))
              end).
Proof.
  split; [apply createRecordTool_run |].
  split; [apply updateRecordTool_run | apply deleteRecordTool_run].
Qed.

(** X13. The two front ends agree on reading a record: the get tool of the
    server issues the same [find] as the get handler of the tool module; when
    the handler returns a record the tool returns its id and fields (the
    creation time is dropped), and when the handler throws, the tool returns
    the error object of the very failure the handler's message wraps. *)
Theorem get_front_ends_agree (W : ServerCrud.World) (b t r : string) :
  Wide.trace (ServerCrud.getRecordTool W b t r)
  = map ServerCrud.Basic (trace (Records.getRecord (ServerCrud.basic W) b t r)) /\
  match outcome (Records.getRecord (ServerCrud.basic W) b t r) with
  | Returned x =>
      Wide.outcome (ServerCrud.getRecordTool W b t r)
      = Returned (ServerCrud.One {| Server.id := Records.id x;
                                    Server.fields := Records.fields x |})
  | Threw e =>
      exists cause,
        e = Js.newError ("Failed to get record: " +:+ Js.toString cause) /\
        Wide.outcome (ServerCrud.getRecordTool W b t r)
        = Returned (ServerCrud.Failed (Js.message cause) (Some (Js.toString cause)))
  end.
Proof.
  unfold Wide.trace, Wide.outcome, trace, outcome.
  rewrite getRecordTool_run, getRecord_run. simpl.
  split; [reflexivity |].
  destruct (find (ServerCrud.basic W) b t r) as [x | e]; [reflexivity |].
  exists e. split; reflexivity.
Qed.

(** ** The completions route *)

(** X15. The completions route answers a request whose prompt is missing or
    falsy (null, false, 0, the empty string) with status 400 and its fixed
    message, and issues no remote call. *)
Theorem completions_require_prompt (W : Completions.World)
    (reqBody : gmap string Js.Value) :
  Completions.truthy (Js.get reqBody "prompt") = false ->
  Wide.run (Completions.completionsRoute W reqBody)
  = ([], Returned {| Completions.status := 400;
                     Completions.body := Completions.ErrorJson "prompt is required" |}).
Proof.
  intros H. unfold Completions.completionsRoute, Wide.run, Wide.try_catch.
  rewrite H. reflexivity.
Qed.

Lemma completions_require_prompt_witness :
  Wide.run (Completions.completionsRoute Sample.echo
              (<[ "prompt" := Js.Str EmptyString ]> (<[ "model" := Js.Str "m" ]> ∅)))
  = ([], Returned {| Completions.status := 400;
                     Completions.body := Completions.ErrorJson "prompt is required" |}).
Proof.
  apply (completions_require_prompt Sample.echo).
  reflexivity.
Defined.

(** X16. For a truthy prompt the completions route issues exactly one
    completion request: one user message whose content is the prompt, the
    model and the token limit of the request body, or [gpt-4o-mini] and 300
    where the body leaves them out (an explicit null is not replaced).  The
    answer is forwarded with status 200; a failure gives status 500 with the
    failure's message; the route never throws. *)
Theorem completions_forward_one_request (W : Completions.World)
    (reqBody : gmap string Js.Value) :
  Completions.truthy (Js.get reqBody "prompt") = true ->
  let request :=
    {| Completions.model :=
         match reqBody !! "model" with
         | None | Some Js.Undefined => Js.Str "gpt-4o-mini"
         | Some v => v
         end;
       Completions.messages :=
         [ {| Completions.role := "user";
              Completions.content := Js.get reqBody "prompt" |} ];
       Completions.max_tokens :=
         match reqBody !! "max_tokens" with
         | None | Some Js.Undefined => Js.Number 300
         | Some v => v
         end |} in
  Wide.run (Completions.completionsRoute W reqBody)
  = ([Completions.CreateCompletion request],
     Returned match Completions.create_completion W request with
              | Returned response =>
                  {| Completions.status := 200;
                     Completions.body := Completions.Forwarded response |}
              | Threw e =>
                  {| Completions.status := 500;
                     Completions.body := Completions.ErrorJson (Js.message e) |}
              end).
Proof.
  intros H request.
  assert (Hd : forall k d,
             Completions.defaulted (Js.get reqBody k) d
             = match reqBody !! k with
               | None | Some Js.Undefined => d
               | Some v => v
               end).
  { intros k d. unfold Js.get. destruct (reqBody !! k) as [[]|]; reflexivity. }
  subst request. rewrite <- !Hd.
  unfold Completions.completionsRoute, Wide.run, Wide.try_catch.
  rewrite H. unfold Wide.bind, Wide.await, Wide.ret. simpl.
  destruct_wide_answer; reflexivity.
Qed.

Lemma completions_forward_one_request_witness :
  Wide.run (Completions.completionsRoute Sample.echo
              (<[ "prompt" := Js.Str "Hello" ]> (<[ "model" := Js.Null ]> ∅)))
  = ([Completions.CreateCompletion
        {| Completions.model := Js.Null;
           Completions.messages :=
             [ {| Completions.role := "user"; Completions.content := Js.Str "Hello" |} ];
           Completions.max_tokens := Js.Number 300 |}],
     Returned {| Completions.status := 500;
                 Completions.body :=
                   Completions.ErrorJson "400 model must be a string" |}).
Proof.
  exact (completions_forward_one_request Sample.echo
           (<[ "prompt" := Js.Str "Hello" ]> (<[ "model" := Js.Null ]> ∅)) eq_refl).
Defined.

(** ** The metadata tools *)

Lemma listTables_run (W : Meta.World) (b : string) :
  Wide.run (Meta.listTables W b)
  = ([Meta.FetchTables b],
     match Meta.fetch_tables W b with
     | Threw e => Threw (Js.newError ("Failed to list tables: " +:+ Js.toString e))
     | Returned response =>
         if Meta.ok response then
           match Meta.json response with
           | Threw e => Threw (Js.newError ("Failed to list tables: " +:+ Js.toString e))
           | Returned tables => Returned (map Meta.tableInfo tables)
           end
         else Threw (Js.newError
                       ("Failed to list tables: Error: API responded with status " +:+
                        pretty (Meta.status response)))
     end).
Proof.
  unfold Meta.listTables, Wide.run, Wide.try_catch, Wide.bind, Wide.await,
    Wide.settle, Wide.ret, Wide.throw. simpl.
  destruct (Meta.fetch_tables W b) as [response | e]; [| reflexivity].
  destruct (Meta.ok response); simpl; [| reflexivity].
  destruct (Meta.json response); reflexivity.
Qed.

Lemma listBases_run (W : Meta.World) :
  Wide.run (Meta.listBases W)
  = ([Meta.FetchBases],
     match Meta.fetch_bases W with
     | Threw e => Threw (Js.newError ("Failed to list bases: " +:+ Js.toString e))
     | Returned response =>
         if Meta.ok response then
           match Meta.json response with
           | Threw e => Threw (Js.newError ("Failed to list bases: " +:+ Js.toString e))
           | Returned bases => Returned (map Meta.baseInfo bases)
           end
         else Threw (Js.newError
                       ("Failed to list bases: Error: API responded with status " +:+
                        pretty (Meta.status response)))
     end).
Proof.
  unfold Meta.listBases, Wide.run, Wide.try_catch, Wide.bind, Wide.await,
    Wide.settle, Wide.ret, Wide.throw. simpl.
  destruct (Meta.fetch_bases W) as [response | e]; [| reflexivity].
  destruct (Meta.ok response); simpl; [| reflexivity].
  destruct (Meta.json response); reflexivity.
Qed.

(** X17. Listing tables issues the one metadata request and nothing else.
    A non-success status makes it throw the prefixed status error.  On
    success it returns one entry per table of the answer, in order, each with
    the table's id, name and description and one entry per field with its id,
    name, type and description; a key the answer lacks reads as undefined and
    any other key of the answer is left out. *)
Theorem listTables_spec (W : Meta.World) (b : string)
    (response : Meta.Reply (list Meta.TableObject)) :
  Meta.fetch_tables W b = Returned response ->
  Wide.trace (Meta.listTables W b) = [Meta.FetchTables b] /\
  (Meta.ok response = false ->
   Wide.outcome (Meta.listTables W b)
   = Threw (Js.newError ("Failed to list tables: Error: API responded with status " +:+
                         pretty (Meta.status response)))) /\
  (forall tables,
     Meta.ok response = true -> Meta.json response = Returned tables ->
     exists out,
       Wide.outcome (Meta.listTables W b) = Returned out /\
       length out = length tables /\
       forall i table,
         tables !! i = Some table ->
         exists info,
           out !! i = Some info /\
           Meta.tbl_id info = default Js.Undefined (Meta.props table !! "id") /\
           Meta.tbl_name info = default Js.Undefined (Meta.props table !! "name") /\
           Meta.tbl_description info
           = default Js.Undefined (Meta.props table !! "description") /\
           length (Meta.tbl_fields info) = length (Meta.field_objects table) /\
           forall j field,
             Meta.field_objects table !! j = Some field ->
             Meta.tbl_fields info !! j
             = Some {| Meta.fld_id := default Js.Undefined (field !! "id");
                       Meta.fld_name := default Js.Undefined (field !! "name");
                       Meta.fld_type := default Js.Undefined (field !! "type");
                       Meta.fld_description :=
                         default Js.Undefined (field !! "description") |}).
Proof.
  intros Hfetch. pose proof (listTables_run W b) as Hrun. rewrite Hfetch in Hrun.
  unfold Wide.trace, Wide.outcome. rewrite Hrun. simpl.
  split; [reflexivity |]. split.
  - intros ->. reflexivity.
  - intros tables -> ->. eexists. split; [reflexivity |].
    split; [apply length_map |].
    intros i table Hi. exists (Meta.tableInfo table).
    split; [now rewrite list_lookup_fmap, Hi |].
    repeat split.
    + apply length_map.
    + intros j field Hj. unfold Meta.tableInfo. simpl.
      now rewrite list_lookup_fmap, Hj.
Qed.

Lemma listTables_spec_witness :
  Wide.trace (Meta.listTables Sample.meta "appShop") = [Meta.FetchTables "appShop"] /\
  exists out,
    Wide.outcome (Meta.listTables Sample.meta "appShop") = Returned out /\
    length out = 1.
Proof.
  destruct (listTables_spec Sample.meta "appShop" _ eq_refl) as [Ht [_ Hok]].
  split; [exact Ht |].
  destruct (Hok [Sample.products] eq_refl eq_refl) as [out [Hout [Hlen _]]].
  exists out. split; [exact Hout | exact Hlen].
Defined.

(** X18. Listing bases issues the one metadata request and nothing else.
    A non-success status makes it throw the prefixed status error.  On
    success it returns one entry per base of the answer, in order, with the
    base's id, name and permission level; a key the answer lacks reads as
    undefined and any other key of the answer is left out. *)
Theorem listBases_spec (W : Meta.World)
    (response : Meta.Reply (list (gmap string Js.Value))) :
  Meta.fetch_bases W = Returned response ->
  Wide.trace (Meta.listBases W) = [Meta.FetchBases] /\
  (Meta.ok response = false ->
   Wide.outcome (Meta.listBases W)
   = Threw (Js.newError ("Failed to list bases: Error: API responded with status " +:+
                         pretty (Meta.status response)))) /\
  (forall bases,
     Meta.ok response = true -> Meta.json response = Returned bases ->
     exists out,
       Wide.outcome (Meta.listBases W) = Returned out /\
       length out = length bases /\
       forall i base,
         bases !! i = Some base ->
         out !! i
         = Some {| Meta.base_id := default Js.Undefined (base !! "id");
                   Meta.base_name := default Js.Undefined (base !! "name");
                   Meta.base_permissionLevel :=
                     default Js.Undefined (base !! "permissionLevel") |}).
Proof.
  intros Hfetch. pose proof (listBases_run W) as Hrun. rewrite Hfetch in Hrun.
  unfold Wide.trace, Wide.outcome. rewrite Hrun. simpl.
  split; [reflexivity |]. split.
  - intros ->. reflexivity.
  - intros bases -> ->. eexists. split; [reflexivity |].
    split; [apply length_map |].
    intros i base Hi. now rewrite list_lookup_fmap, Hi.
Qed.

Lemma listBases_spec_witness :
  Wide.trace (Meta.listBases Sample.meta) = [Meta.FetchBases] /\
  exists out,
    Wide.outcome (Meta.listBases Sample.meta) = Returned out /\
    out !! 0 = Some {| Meta.base_id := Js.Str "appShop";
                       Meta.base_name := Js.Str "Shop";
                       Meta.base_permissionLevel := Js.Str "create" |}.
Proof.
  destruct (listBases_spec Sample.meta _ eq_refl) as [Ht [_ Hok]].
  split; [exact Ht |].
  destruct (Hok [Sample.shop] eq_refl eq_refl) as [out [Hout [_ Hat]]].
  exists out. split; [exact Hout |].
  exact (Hat 0 Sample.shop eq_refl).
Defined.

(** ** The formula keeps the term apart *)

Lemma any_field_shape (term f : string) (fs : list string) :
  exists rest,
    Spec.any_field term f fs
    = "FIND(LOWER(" +:+
      String Js.dquote (Spec.escape_quotes term +:+
                        String Js.dquote (String ")" rest)).
Proof.
  destruct fs as [|g gs]; simpl Spec.any_field; unfold Spec.find_in_field.
  - eexists. rewrite (append_cons Js.dquote (Spec.escape_quotes term)).
    reflexivity.
  - eexists. rewrite !append_assoc.
    rewrite (append_cons Js.dquote (Spec.escape_quotes term)).
    reflexivity.
Qed.

Lemma formula_shape (term f : string) (fs : list string) :
  exists rest,
    Server.filterByFormula (f :: fs) term
    = "OR(FIND(LOWER(" +:+
      String Js.dquote (Spec.escape_quotes term +:+
                        String Js.dquote (String ")" rest)).
Proof.
  unfold Server.filterByFormula. rewrite join_parts.
  destruct (any_field_shape term f fs) as [rest ->].
  exists (rest +:+ ")").
  rewrite !append_assoc, !append_cons, !append_assoc. reflexivity.
Qed.

(** X19. The formula determines the term: whatever the field names, two
    different terms never give the same formula, so no term, with or without
    quotes, is mistaken for another once escaped and embedded. *)
Theorem different_terms_different_formulas (f1 f2 : string) (fs1 fs2 : list string)
    (term1 term2 : string) :
  term1 <> term2 ->
  Server.filterByFormula (f1 :: fs1) term1 <> Server.filterByFormula (f2 :: fs2) term2.
Proof.
  intros Hne Heq.
  destruct (formula_shape term1 f1 fs1) as [r1 H1].
  destruct (formula_shape term2 f2 fs2) as [r2 H2].
  rewrite H1, H2 in Heq.
  apply (f_equal (fun s => match s with
                           | String _ (String _ (String _ (String _ (String _
                               (String _ (String _ (String _ (String _ (String _
                               (String _ (String _ (String _ (String _ (String _
                               rest)))))))))))))) => Spec.read_literal rest
                           | _ => None
                           end)) in Heq.
  simpl in Heq.
  rewrite (read_escaped term1 ")" r1 eq_refl) in Heq.
  rewrite (read_escaped term2 ")" r2 eq_refl) in Heq.
  congruence.
Qed.

Lemma different_terms_different_formulas_witness :
  Server.filterByFormula ["Name"] Demo.quoted_term
  <> Server.filterByFormula ["Name"; "Tags"] "He said hi".
Proof.
  apply different_terms_different_formulas.
  discriminate.
Defined.

(** ** Unknown field ids *)

(** X20. Explicit field ids are never replaced by the text-like fields: when
    the table is found and the page is fetched, a search whose non-empty id
    list names no field of the table fails with the no-searchable-fields
    error, whatever text-like fields the table has. *)
Theorem unknown_ids_do_not_fall_back (W : World) (b t term : string)
    (ids : list string) (mr : option Z) (table : Table) (page : list Record_) :
  outcome (Records.lookupTable W b t) = Returned table ->
  select_all W b t (Spec.limit_only (default 100%Z mr)) = Returned page ->
  ids <> [] ->
  (forall f, In f (table_fields table) -> ~ In (field_id f) ids) ->
  outcome (Records.searchRecords W b t term (Some ids) mr)
  = Threw (Js.newError "Failed to search records: Error: No searchable fields found").
Proof.
  intros Hl Hs Hne Hnone. unfold outcome at 1.
  rewrite searchRecords_run, Hl, Hs. cbn [snd].
  assert (Hn : Records.searchFieldNames table (Some ids) = []).
  { destruct (Records.searchFieldNames table (Some ids)) as [|n names] eqn:H;
      [reflexivity |].
    assert (Hin : In n (Records.searchFieldNames table (Some ids)))
      by (rewrite H; now left).
    destruct ids as [|i ids]; [congruence |].
    apply names_of_filter in Hin. destruct Hin as [f [Hf [Hp _]]].
    apply arr_includes_spec in Hp. destruct (Hnone f Hf Hp). }
  rewrite Hn. reflexivity.
Qed.

Lemma unknown_ids_do_not_fall_back_witness :
  outcome (Records.searchRecords Demo.world "appShop" "Products" "Widget"
             (Some ["fldGone"]) None)
  = Threw (Js.newError "Failed to search records: Error: No searchable fields found").
Proof.
  apply (unknown_ids_do_not_fall_back Demo.world "appShop" "Products" "Widget"
           ["fldGone"] None Demo.products [Demo.widget; Demo.gadget]).
  - reflexivity.
  - reflexivity.
  - discriminate.
  - intros f Hf [Hid | []]. simpl in Hf.
    destruct Hf as [<- | [<- | [<- | []]]]; discriminate Hid.
Defined.
